(** * Shallow embedding of [src/app.py] (payslip extractor)

    Python [str] values are modelled as Rocq [string]s read in Latin-1:
    every [ascii] character stands for the code point U+0000..U+00FF with
    the same number.  All the literals of the program that the claims touch
    ("Descrição", "Referência", "Mês/Ano", "não") are written with their
    Latin-1 code points.  The one literal character outside that range, the
    en dash of the amount warning, only appears in [aviso_texto], which
    renders warnings as lists of code points. *)

From Stdlib Require Import String Ascii List ZArith QArith Bool Lia.
From Stdlib Require Import Permutation Sorted Lqa.
Import ListNotations.

Open Scope Z_scope.
Open Scope list_scope.

Notation "a +++ b" := (String.append a b) (at level 60, right associativity).

(** ** Characters *)

Definition cp (c : ascii) : N := N_of_ascii c.

Definition ch (n : N) : string := String (ascii_of_N n) EmptyString.

(** [str.isspace] on U+0000..U+00FF; it is also the class [\s] of [re]
    for str patterns. *)
Definition is_space (c : ascii) : bool :=
  let n := cp c in
  ((9 <=? n)%N && (n <=? 13)%N) || ((28 <=? n)%N && (n <=? 31)%N)
  || (n =? 32)%N || (n =? 133)%N || (n =? 160)%N.

(** [\d] on U+0000..U+00FF. *)
Definition is_digit (c : ascii) : bool :=
  let n := cp c in (48 <=? n)%N && (n <=? 57)%N.

(** Line boundaries of [str.splitlines] on U+0000..U+00FF
    (\n \v \f \r \x1c \x1d \x1e \x85). *)
Definition is_line_break (c : ascii) : bool :=
  let n := cp c in
  ((10 <=? n)%N && (n <=? 13)%N) || ((28 <=? n)%N && (n <=? 30)%N)
  || (n =? 133)%N.

Definition is_ascii_lower (c : ascii) : bool :=
  let n := cp c in (97 <=? n)%N && (n <=? 122)%N.

Definition is_ascii_upper (c : ascii) : bool :=
  let n := cp c in (65 <=? n)%N && (n <=? 90)%N.

(** Latin-1 literals used by the program. *)
Definition s_Descricao : string :=
  "Descri" +++ ch 231 +++ ch 227 +++ "o".
Definition s_Referencia : string := "Refer" +++ ch 234 +++ "ncia".
Definition s_MesAno : string := "M" +++ ch 234 +++ "s/Ano".
Definition s_BaseFGTS : string := "Base FGTS".
Definition s_nao : string := "n" +++ ch 227 +++ "o".

(** ** [str] methods *)

Fixpoint lstrip (s : string) : string :=
  match s with
  | EmptyString => EmptyString
  | String c r => if is_space c then lstrip r else s
  end.

Fixpoint rstrip (s : string) : string :=
  match s with
  | EmptyString => EmptyString
  | String c r =>
      let r' := rstrip r in
      if is_space c && String.eqb r' EmptyString then EmptyString
      else String c r'
  end.

(** [txt.strip()] *)
Definition strip (s : string) : string := rstrip (lstrip s).

(** [texto.splitlines()]: "\r\n" is one boundary and a final boundary
    does not open an empty last line. *)
Fixpoint splitlines_aux (s cur : string) : list string :=
  match s with
  | EmptyString => if String.eqb cur EmptyString then [] else [cur]
  | String c r =>
      if (cp c =? 13)%N then
        match r with
        | String c' r' =>
            if (cp c' =? 10)%N then cur :: splitlines_aux r' EmptyString
            else cur :: splitlines_aux r EmptyString
        | EmptyString => [cur]
        end
      else if is_line_break c then cur :: splitlines_aux r EmptyString
      else splitlines_aux r (cur +++ String c EmptyString)
  end.

Definition splitlines (s : string) : list string := splitlines_aux s EmptyString.

(** [re.split(r"\s{2,}", s)].  A match of [\s{2,}] starts at the first
    character of a whitespace run of length at least 2 and, being greedy,
    takes the whole run; runs of length 1 never match.  [ws] holds the
    pending whitespace run. *)
Fixpoint split_ws2_aux (s cur ws : string) : list string :=
  match s with
  | EmptyString =>
      if (2 <=? String.length ws)%nat then [cur; EmptyString] else [cur +++ ws]
  | String c r =>
      if is_space c then split_ws2_aux r cur (ws +++ String c EmptyString)
      else if (2 <=? String.length ws)%nat
      then cur :: split_ws2_aux r (String c EmptyString) EmptyString
      else split_ws2_aux r (cur +++ ws +++ String c EmptyString) EmptyString
  end.

Definition re_split_ws2 (s : string) : list string :=
  split_ws2_aux s EmptyString EmptyString.

(** [str.upper] on U+0000..U+00FF.  ß becomes "SS"; µ (U+00B5) and ÿ
    (U+00FF), whose upper case lies outside U+0000..U+00FF, are kept. *)
Definition upper_char (c : ascii) : string :=
  let n := cp c in
  if is_ascii_lower c then ch (n - 32)
  else if (n =? 223)%N then "SS"
  else if (224 <=? n)%N && (n <=? 254)%N && negb (n =? 247)%N then ch (n - 32)
  else String c EmptyString.

Fixpoint py_upper (s : string) : string :=
  match s with
  | EmptyString => EmptyString
  | String c r => upper_char c +++ py_upper r
  end.

(** [str.lower] on U+0000..U+00FF. *)
Definition lower_char (c : ascii) : string :=
  let n := cp c in
  if is_ascii_upper c then ch (n + 32)
  else if ((192 <=? n)%N && (n <=? 222)%N && negb (n =? 215)%N) then ch (n + 32)
  else String c EmptyString.

(** Cased characters (categories Lu, Ll, Lt) of U+0000..U+00FF. *)
Definition is_cased (c : ascii) : bool :=
  let n := cp c in
  is_ascii_lower c || is_ascii_upper c || (n =? 181)%N
  || ((192 <=? n)%N && (n <=? 255)%N && negb (n =? 215)%N && negb (n =? 247)%N).

(** Title case of one character: the upper case, except ß whose title
    case is "Ss". *)
Definition title_char (c : ascii) : string :=
  if (cp c =? 223)%N then "Ss" else upper_char c.

(** [str.title]: a cased character following a cased character is put in
    lower case, any other one in title case. *)
Fixpoint title_aux (prev_cased : bool) (s : string) : string :=
  match s with
  | EmptyString => EmptyString
  | String c r =>
      (if prev_cased then lower_char c else title_char c)
        +++ title_aux (is_cased c) r
  end.

Definition py_title (s : string) : string := title_aux false s.

(** ** [float(str)]

    The grammar of [float()] for str arguments: surrounding whitespace,
    an optional sign, then "inf", "infinity" or "nan" in any ASCII case,
    or a decimal literal
      number   ::= [digitpart] "." digitpart | digitpart ["."]
      exponent ::= ("e" | "E") ["+" | "-"] digitpart
      digitpart ::= digit (["_"] digit)*.
    A finite result is kept as the exact decimal value of the literal; the
    double that Python stores is the rounding of that value, so two
    literals with the same decimal value give the same float. *)

Inductive pyfloat : Type :=
| Fin (q : Q)
| Inf (neg : bool)
| NaN.

Definition digit_val (c : ascii) : Z := Z.of_N (cp c) - 48.

Fixpoint digitpart_rest (s : string) (acc : Z) (n : nat) : Z * nat * string :=
  match s with
  | String c r =>
      if is_digit c then digitpart_rest r (acc * 10 + digit_val c) (S n)
      else if (cp c =? 95)%N then
        match r with
        | String d r' =>
            if is_digit d then digitpart_rest r' (acc * 10 + digit_val d) (S n)
            else (acc, n, s)
        | EmptyString => (acc, n, s)
        end
      else (acc, n, s)
  | EmptyString => (acc, n, s)
  end.

(** A [digitpart]: its value, its number of digits and the rest. *)
Definition digitpart (s : string) : option (Z * nat * string) :=
  match s with
  | String c r =>
      if is_digit c then Some (digitpart_rest r (digit_val c) 1) else None
  | EmptyString => None
  end.

(** A [number]: the digits read as an integer, the number of digits after
    the point, and the rest. *)
Definition parse_number (s : string) : option (Z * nat * string) :=
  match digitpart s with
  | Some (i, _, r) =>
      match r with
      | String c r' =>
          if (cp c =? 46)%N then
            match digitpart r' with
            | Some (f, nf, r'') => Some (i * 10 ^ Z.of_nat nf + f, nf, r'')
            | None => Some (i, O, r')
            end
          else Some (i, O, r)
      | EmptyString => Some (i, O, r)
      end
  | None =>
      match s with
      | String c r' =>
          if (cp c =? 46)%N then
            match digitpart r' with
            | Some (f, nf, r'') => Some (f, nf, r'')
            | None => None
            end
          else None
      | EmptyString => None
      end
  end.

Definition parse_exponent (s : string) : option (Z * string) :=
  match s with
  | String c r =>
      if (cp c =? 101)%N || (cp c =? 69)%N then
        let '(sg, r1) :=
          match r with
          | String d r' =>
              if (cp d =? 43)%N then (1%Z, r')
              else if (cp d =? 45)%N then ((-1)%Z, r')
              else (1%Z, r)
          | EmptyString => (1%Z, r)
          end in
        match digitpart r1 with
        | Some (e, _, r2) => Some (sg * e, r2)
        | None => None
        end
      else None
  | EmptyString => None
  end.

Fixpoint ascii_lower (s : string) : string :=
  match s with
  | EmptyString => EmptyString
  | String c r =>
      String (if is_ascii_upper c then ascii_of_N (cp c + 32) else c) (ascii_lower r)
  end.

(** Exact value of [m * 10^(e - nf)], with sign. *)
Definition dec_value (neg : bool) (m : Z) (nf : nat) (e : Z) : Q :=
  let m' := if neg then (- m)%Z else m in
  let k := (e - Z.of_nat nf)%Z in
  if (0 <=? k)%Z then Qmake (m' * 10 ^ k) 1
  else Qmake m' (Z.to_pos (10 ^ (- k))).

Definition py_float (s : string) : option pyfloat :=
  let t := strip s in
  let '(neg, body) :=
    match t with
    | String c r =>
        if (cp c =? 43)%N then (false, r)
        else if (cp c =? 45)%N then (true, r)
        else (false, t)
    | EmptyString => (false, t)
    end in
  let low := ascii_lower body in
  if String.eqb low "inf" || String.eqb low "infinity" then Some (Inf neg)
  else if String.eqb low "nan" then Some NaN
  else
    match parse_number body with
    | Some (m, nf, r) =>
        let '(e, r') :=
          match parse_exponent r with
          | Some p => p
          | None => (0%Z, r)
          end in
        if String.eqb r' EmptyString then Some (Fin (dec_value neg m nf e))
        else None
    | None => None
    end.

(** [s.replace(old, new)] for one-character [old]. *)
Fixpoint replace_char (old : ascii) (new : string) (s : string) : string :=
  match s with
  | EmptyString => EmptyString
  | String c r =>
      (if Ascii.eqb c old then new else String c EmptyString)
        +++ replace_char old new r
  end.

(** [normalizar_valor] (app.py, lines 92-99). *)
Definition normalizar_valor (txt : string) : pyfloat * bool :=
  let txt := strip txt in
  if String.eqb txt "" || String.eqb txt "-" || String.eqb txt "0,00"
  then (Fin 0, true)
  else
    match py_float (replace_char "," "." (replace_char "." "" txt)) with
    | Some v => (v, true)
    | None => (Fin 0, false)
    end.

(** ** The two regular expressions (app.py, lines 88-89)

    Both are compiled with [re.I].  On U+0000..U+00FF the ASCII letters of
    the patterns match their two cases, [e] of [[eê]] also matches "E", and
    [ê] also matches "Ê"; [[A-ZÇ]] matches A-Z, a-z, Ç and ç.  Every
    repetition is greedy and the class that follows it is disjoint from it,
    so backtracking never changes a match: a match is found by taking each
    run whole. *)

(** One character against a lower-case ASCII pattern letter under [re.I]. *)
Definition ci_eq (p c : ascii) : bool :=
  Ascii.eqb c p || (is_ascii_lower p && (cp c =? cp p - 32)%N).

Fixpoint match_ci (p s : string) : option string :=
  match p with
  | EmptyString => Some s
  | String pc pr =>
      match s with
      | String c r => if ci_eq pc c then match_ci pr r else None
      | EmptyString => None
      end
  end.

(** Longest prefix whose characters satisfy [f], and the rest. *)
Fixpoint span (f : ascii -> bool) (s : string) : string * string :=
  match s with
  | String c r =>
      if f c then let '(a, b) := span f r in (String c a, b)
      else (EmptyString, s)
  | EmptyString => (EmptyString, EmptyString)
  end.

Definition is_e_circ (c : ascii) : bool :=
  let n := cp c in (n =? 101)%N || (n =? 69)%N || (n =? 234)%N || (n =? 202)%N.

Definition is_ref_sep (c : ascii) : bool := (cp c =? 58)%N || is_space c.

Definition is_mes_char (c : ascii) : bool :=
  is_ascii_upper c || is_ascii_lower c || (cp c =? 199)%N || (cp c =? 231)%N.

(** [\d{4}] at the head of [s]. *)
Definition digitos4 (s : string) : option string :=
  let a := String.substring 0 4 s in
  if (String.length a =? 4)%nat && forallb is_digit (list_ascii_of_string a)
  then Some a else None.

(** [Refer[eê]ncia[:\s]+([A-ZÇ]+)\/(\d{4})] matched at the head of [s]:
    the two groups. *)
Definition re_ref_match (s : string) : option (string * string) :=
  match match_ci "refer" s with
  | Some (String e r2) =>
      if is_e_circ e then
        match match_ci "ncia" r2 with
        | Some r3 =>
            let '(sep, r4) := span is_ref_sep r3 in
            if String.eqb sep EmptyString then None else
            let '(mes, r5) := span is_mes_char r4 in
            if String.eqb mes EmptyString then None else
            match r5 with
            | String sl r6 =>
                if (cp sl =? 47)%N then
                  match digitos4 r6 with
                  | Some ano => Some (mes, ano)
                  | None => None
                  end
                else None
            | EmptyString => None
            end
        | None => None
        end
      else None
  | _ => None
  end.

(** [re_ref.search(ln)]: the leftmost match. *)
Fixpoint re_ref_search (s : string) : option (string * string) :=
  match re_ref_match s with
  | Some m => Some m
  | None =>
      match s with
      | String _ r => re_ref_search r
      | EmptyString => None
      end
  end.

Definition is_num_char (c : ascii) : bool :=
  is_digit c || (cp c =? 46)%N || (cp c =? 44)%N.

(** [BASE\s+CALC\.\s+FGTS\s+([\d\.,]+)] at the head of [s]: the group. *)
Definition re_fgts_match (s : string) : option string :=
  match match_ci "base" s with
  | Some r1 =>
      let '(w1, r2) := span is_space r1 in
      if String.eqb w1 EmptyString then None else
      match match_ci "calc." r2 with
      | Some r3 =>
          let '(w2, r4) := span is_space r3 in
          if String.eqb w2 EmptyString then None else
          match match_ci "fgts" r4 with
          | Some r5 =>
              let '(w3, r6) := span is_space r5 in
              if String.eqb w3 EmptyString then None else
              let '(g, _) := span is_num_char r6 in
              if String.eqb g EmptyString then None else Some g
          | None => None
          end
      | None => None
      end
  | None => None
  end.

(** [re_fgts.search(ln)]. *)
Fixpoint re_fgts_search (s : string) : option string :=
  match re_fgts_match s with
  | Some g => Some g
  | None =>
      match s with
      | String _ r => re_fgts_search r
      | EmptyString => None
      end
  end.

(** ** Warnings

    The three f-strings of [extrair_recibo_texto], kept with their
    arguments; [aviso_texto] renders them as code points. *)
Inductive aviso : Type :=
| ValorNaoLido (mes_ano desc valor_txt : string)
    (* f"{mes_ano}: '{desc}' – valor não lido ({valor_txt})" *)
| FgtsNaoReconhecida (mes_ano g : string)
    (* f"{mes_ano}: Base FGTS não reconhecida ({g})" *)
| FgtsNaoEncontrada (mes_ano : string)
    (* f"{mes_ano}: Base FGTS não encontrada" *).

Definition cps (s : string) : list N := map cp (list_ascii_of_string s).

Definition aviso_texto (a : aviso) : list N :=
  match a with
  | ValorNaoLido m d v =>
      cps (m +++ ": '" +++ d +++ "' ") ++ [8211%N]
        ++ cps (" valor " +++ s_nao +++ " lido (" +++ v +++ ")")
  | FgtsNaoReconhecida m g =>
      cps (m +++ ": Base FGTS " +++ s_nao +++ " reconhecida (" +++ g +++ ")")
  | FgtsNaoEncontrada m =>
      cps (m +++ ": Base FGTS " +++ s_nao +++ " encontrada")
  end.

(** ** Receipt parser: [extrair_recibo_texto] (app.py, lines 101-142) *)

(** A Python dict with string keys, in insertion order. *)
Definition dict (V : Type) := list (string * V).

(** [d[k] = v]: an existing key keeps its place. *)
Fixpoint dict_set {V} (k : string) (v : V) (d : dict V) : dict V :=
  match d with
  | [] => [(k, v)]
  | (k', v') :: r =>
      if String.eqb k' k then (k, v) :: r else (k', v') :: dict_set k v r
  end.

Fixpoint dict_get {V} (k : string) (d : dict V) : option V :=
  match d with
  | [] => None
  | (k', v') :: r => if String.eqb k' k then Some v' else dict_get k r
  end.

Definition dict_keys {V} (d : dict V) : list string := map fst d.

(** The loop over [linhas[:8]]: the period key of the first match. *)
Fixpoint achar_mes_ano (ls : list string) : option string :=
  match ls with
  | [] => None
  | ln :: r =>
      match re_ref_search ln with
      | Some (mes, ano) => Some (py_title (String.substring 0 3 mes) +++ "/" +++ ano)
      | None => achar_mes_ano r
      end
  end.

(** The loop "Proventos", with its flag [lendo]; [break] returns. *)
Fixpoint ler_proventos (mes_ano : string) (lendo : bool) (ls : list string)
    (provs : dict pyfloat) (avs : list aviso) : dict pyfloat * list aviso :=
  match ls with
  | [] => (provs, avs)
  | ln :: r =>
      if String.prefix s_Descricao (strip ln) then
        ler_proventos mes_ano true r provs avs
      else if lendo then
        if String.prefix "TOTAL DE PROVENTOS" (strip ln) then (provs, avs)
        else
          let partes := re_split_ws2 (strip ln) in
          if (2 <=? length partes)%nat then
            let desc := py_upper (hd EmptyString partes) in
            let valor_txt := last partes EmptyString in
            let '(valor, ok) := normalizar_valor valor_txt in
            ler_proventos mes_ano lendo r (dict_set desc valor provs)
              (if ok then avs else avs ++ [ValorNaoLido mes_ano desc valor_txt])
          else ler_proventos mes_ano lendo r provs avs
      else ler_proventos mes_ano lendo r provs avs
  end.

(** The loop over [reversed(linhas)]: the group of the first match. *)
Fixpoint achar_fgts (ls : list string) : option string :=
  match ls with
  | [] => None
  | ln :: r =>
      match re_fgts_search ln with
      | Some g => Some g
      | None => achar_fgts r
      end
  end.

(** The returned tuple [(mes_ano, proventos, fgts_base, avisos)]. *)
Record recibo : Type := {
  r_mes_ano : string;
  r_proventos : dict pyfloat;
  r_fgts : pyfloat;
  r_avisos : list aviso
}.

Definition extrair_recibo_texto (texto : string) : option recibo :=
  let linhas := splitlines texto in
  match achar_mes_ano (firstn 8 linhas) with
  | None => None
  | Some mes_ano =>
      let '(provs, avs) := ler_proventos mes_ano false linhas [] [] in
      let '(fgts_base, avs') :=
        match achar_fgts (rev linhas) with
        | Some g =>
            let '(v, ok) := normalizar_valor g in
            (v, if ok then avs else avs ++ [FgtsNaoReconhecida mes_ano g])
        | None => (Fin 0, avs ++ [FgtsNaoEncontrada mes_ano])
        end in
      Some {| r_mes_ano := mes_ano; r_proventos := provs;
              r_fgts := fgts_base; r_avisos := avs' |}
  end.

(** ** Token cache: [_cached_token] and [get_access_token] (app.py, lines 25-47) *)

(** What [requests.post(TOKEN_URL, ...)] ends in, as [_cached_token] sees it. *)
Inductive resposta : Type :=
| Falha
    (* post, [raise_for_status], [r.json()] or [resp["access_token"]] raised *)
| SemValidade (access_token : string)
    (* [resp["expires_in"]] missing or not a number: raises after [time.time()] *)
| Token (access_token : string) (expires_in : Q).

(** The [lru_cache(maxsize=1)] entry of [_cached_token], and how many
    POST requests and [time.time()] readings have been made. *)
Record mundo : Type := {
  cache : option (string * Q);
  pedidos : nat;
  leituras : nat
}.

Section Token.

(** The [n]-th POST to [TOKEN_URL] and the [n]-th reading of [time.time()]. *)
Variable servidor : nat -> resposta.
Variable relogio : nat -> Q.

Definition com_cache (w : mundo) (c : option (string * Q)) : mundo :=
  {| cache := c; pedidos := pedidos w; leituras := leituras w |}.

Definition ler_relogio (w : mundo) : Q * mundo :=
  (relogio (leituras w),
   {| cache := cache w; pedidos := pedidos w; leituras := S (leituras w) |}).

(** [_cached_token()]: the cached pair, else one request; a call that
    raises caches nothing. *)
Definition cached_token (w : mundo) : option (string * Q) * mundo :=
  match cache w with
  | Some e => (Some e, w)
  | None =>
      let w1 := {| cache := None; pedidos := S (pedidos w); leituras := leituras w |} in
      match servidor (pedidos w) with
      | Falha => (None, w1)
      | SemValidade _ => (None, snd (ler_relogio w1))
      | Token tok v =>
          let '(agora, w2) := ler_relogio w1 in
          let e := (tok, (agora + v - 60)%Q) in
          (Some e, com_cache w2 (Some e))
      end
  end.

(** [get_access_token()]; [None] when it raises. *)
Definition get_access_token (w : mundo) : option string * mundo :=
  match cached_token w with
  | (None, w1) => (None, w1)
  | (Some (tok, exp), w1) =>
      let '(agora, w2) := ler_relogio w1 in
      if Qle_bool agora exp then (Some tok, w2)
      else
        match cached_token (com_cache w2 None) with
        | (None, w3) => (None, w3)
        | (Some (tok', _), w3) => (Some tok', w3)
        end
  end.

End Token.

(** ** Remote extraction: [extract_pdf_adobe] (app.py, lines 52-83)

    The request, the token and the HTTP status check are outside the
    model: a failed call is [None] in [processar].  What is modelled is the
    grouping of the response's [elements] list, each element reduced to
    its [Page] and [Text] fields. *)

Definition elemento := (Z * string)%type.

(** [pages.setdefault(page, []).append(text)] *)
Fixpoint setdefault_append (p : Z) (t : string) (d : list (Z * list string))
    : list (Z * list string) :=
  match d with
  | [] => [(p, [t])]
  | (p', ts) :: r =>
      if Z.eqb p' p then (p', ts ++ [t]) :: r
      else (p', ts) :: setdefault_append p t r
  end.

Definition agrupar_paginas (els : list elemento) : list (Z * list string) :=
  fold_left (fun d e => setdefault_append (fst e) (snd e) d) els [].

Fixpoint insere_Z (x : Z) (l : list Z) : list Z :=
  match l with
  | [] => [x]
  | y :: r => if x <=? y then x :: l else y :: insere_Z x r
  end.

(** [sorted(...)] on integers. *)
Definition sorted_Z (l : list Z) : list Z := fold_right insere_Z [] l.

Fixpoint lookup_Z {V} (k : Z) (d : list (Z * V)) : option V :=
  match d with
  | [] => None
  | (k', v) :: r => if Z.eqb k' k then Some v else lookup_Z k r
  end.

(** ["\n".join(ts)] *)
Definition join_nl (ts : list string) : string := String.concat (ch 10) ts.

Definition extract_pdf_adobe (els : list elemento) : list string :=
  let pages := agrupar_paginas els in
  map (fun p => join_nl (match lookup_Z p pages with Some ts => ts | None => [] end))
    (sorted_Z (map fst pages)).

(** ** Batch aggregator: [processar_pdf] (app.py, lines 147-210) *)

(** One entry of [registros]: the dict
    [{"Mês/Ano": mes_ano, "Proventos": provs, "Base FGTS": fgts}]. *)
Record registro : Type := {
  g_mes_ano : string;
  g_proventos : dict pyfloat;
  g_fgts : pyfloat
}.

(** The three accumulators [registros], [rubricas] (a set) and
    [avisos_totais]. *)
Record estado : Type := {
  registros : list registro;
  rubricas : list string;
  avisos_totais : list aviso
}.

Definition estado0 : estado :=
  {| registros := []; rubricas := []; avisos_totais := [] |}.

(** [rubricas.update(keys)] *)
Definition set_update (s : list string) (ks : list string) : list string :=
  fold_left (fun acc k => if existsb (String.eqb k) acc then acc else acc ++ [k]) ks s.

(** The body of both page loops. *)
Definition passo (st : estado) (texto : string) : estado :=
  match extrair_recibo_texto texto with
  | None => st
  | Some rc =>
      if existsb (fun r => String.eqb (g_mes_ano r) (r_mes_ano rc)) (registros st)
      then st
      else {| registros := registros st ++
                [{| g_mes_ano := r_mes_ano rc; g_proventos := r_proventos rc;
                    g_fgts := r_fgts rc |}];
              rubricas := set_update (rubricas st) (dict_keys (r_proventos rc));
              avisos_totais := avisos_totais st ++ r_avisos rc |}
  end.

Definition coletar (textos : list string) (st : estado) : estado :=
  fold_left passo textos st.

Fixpoint todas {A} (l : list (option A)) : option (list A) :=
  match l with
  | [] => Some []
  | None :: _ => None
  | Some x :: r => match todas r with Some xs => Some (x :: xs) | None => None end
  end.

(** [range(a, b)] *)
Definition faixa (a b : Z) : list Z :=
  map (fun i => a + Z.of_nat i) (seq 0 (Z.to_nat (b - a))).

(** A pdfplumber page, through its [extract_text()]. *)
Record pagina : Type := {
  extract_text : option string
}.

Definition pagina_vazia : pagina := {| extract_text := None |}.

(** [page.extract_text() or pytesseract.image_to_string(Image.open(
    io.BytesIO(page.to_image(resolution=300).original)))].  [.original] is
    a PIL image, not bytes, so [io.BytesIO] raises [TypeError] whenever the
    OCR operand is evaluated: [None] is that exception. *)
Definition texto_pagina (p : pagina) : option string :=
  match extract_text p with
  | Some t => if String.eqb t EmptyString then None else Some t
  | None => None
  end.

(** The texts the Adobe loop reads, after clamping the range. *)
Definition fatia (textos : list string) (ini fim : Z) : list string :=
  map (fun idx => nth (Z.to_nat idx) textos EmptyString) (faixa (ini - 1) fim).

(** Step 1: the Adobe path.  [adobe] is [None] when [extract_pdf_adobe]
    raised.  The clamped [pagina_ini], [pagina_fim] are returned, as the
    Python code rebinds them. *)
Definition fase_adobe (adobe : option (list elemento)) (ini fim : Z)
    : estado * Z * Z :=
  let textos := match adobe with Some els => extract_pdf_adobe els | None => [] end in
  match textos with
  | [] => (estado0, ini, fim)
  | _ :: _ =>
      let total_pag := Z.of_nat (length textos) in
      let ini' := Z.max 1 ini in
      let fim' := Z.min total_pag fim in
      (coletar (fatia textos ini' fim') estado0, ini', fim')
  end.

(** The page texts the fallback loop reads, after clamping the range;
    [None] for a page whose text raised. *)
Definition fatia_pdf (pdf : list pagina) (ini fim : Z) : list (option string) :=
  let ini' := Z.max 1 ini in
  let fim' := Z.min (Z.of_nat (length pdf)) fim in
  map (fun idx => texto_pagina (nth (Z.to_nat idx) pdf pagina_vazia))
    (faixa (ini' - 1) fim').

(** Step 2: the pdfplumber/OCR fallback, run when [registros] is empty.
    An exception raised by a page of the loop leaves [processar_pdf]
    ([None]). *)
Definition fase_ocr (pdf : list pagina) (st : estado) (ini fim : Z) : option estado :=
  match registros st with
  | [] =>
      match todas (fatia_pdf pdf ini fim) with
      | Some ts => Some (coletar ts st)
      | None => None
      end
  | _ :: _ => Some st
  end.

Definition executar (adobe : option (list elemento)) (pdf : list pagina)
    (ini fim : Z) : option estado :=
  let '(st, ini', fim') := fase_adobe adobe ini fim in
  fase_ocr pdf st ini' fim'.

(** *** The DataFrame (app.py, lines 194-210) *)

Inductive celula : Type :=
| CStr (s : string)
| CNum (v : pyfloat).

(** Columns and rows after [df[cols]]; a [None] cell is a missing value. *)
Record tabela : Type := {
  colunas : list string;
  linhas : list (list (option celula))
}.

(** [pd.DataFrame()] *)
Definition tabela_vazia : tabela := {| colunas := []; linhas := [] |}.

Inductive resultado : Type :=
| Ok (t : tabela) (avs : list aviso)
| Excecao.

Fixpoint insere_str (x : string) (l : list string) : list string :=
  match l with
  | [] => [x]
  | y :: r => if String.ltb y x then y :: insere_str x r else x :: l
  end.

(** [sorted(rubricas)]: code-point order. *)
Definition sorted_str (l : list string) : list string := fold_right insere_str [] l.

(** [reg["Proventos"].get(rub, 0.0)] *)
Definition get_or_zero (rub : string) (provs : dict pyfloat) : pyfloat :=
  match dict_get rub provs with Some v => v | None => Fin 0 end.

(** The dict [linha] built for one record. *)
Definition linha_de (rubs : list string) (reg : registro) : dict celula :=
  fold_left (fun l rub => dict_set rub (CNum (get_or_zero rub (g_proventos reg))) l)
    rubs [(s_MesAno, CStr (g_mes_ano reg)); (s_BaseFGTS, CNum (g_fgts reg))].

(** Columns of [pd.DataFrame(linhas)]: keys in order of first appearance. *)
Definition colunas_df (ls : list (dict celula)) : list string :=
  fold_left (fun acc l => set_update acc (dict_keys l)) ls [].

Definition meses_en : list string :=
  ["jan"; "feb"; "mar"; "apr"; "may"; "jun"; "jul"; "aug"; "sep"; "oct"; "nov"; "dec"]%string.

Fixpoint indice_str (x : string) (l : list string) (i : Z) : option Z :=
  match l with
  | [] => None
  | y :: r => if String.eqb x y then Some i else indice_str x r (i + 1)
  end.

Fixpoint digitos_Z (s : string) (acc : Z) : Z :=
  match s with
  | EmptyString => acc
  | String c r => digitos_Z r (acc * 10 + digit_val c)
  end.

(** [pd.to_datetime(s, format="%b/%Y")] for one value, as the month count
    [12 * year + (month - 1)] of the first day of the month.  [%b] matches
    the C-locale month abbreviations in any case, [%Y] four digits, and the
    whole value must be consumed.  The date must lie in the nanosecond
    Timestamp range of pandas 2.x (1677-09-21 .. 2262-04-11), else
    OutOfBoundsDatetime; later pandas versions accept a wider range. *)
Definition data_mes_ano (s : string) : option Z :=
  if (String.length s =? 8)%nat then
    match indice_str (ascii_lower (String.substring 0 3 s)) meses_en 0,
          String.get 3 s, digitos4 (String.substring 4 4 s) with
    | Some m, Some sl, Some ano =>
        if (cp sl =? 47)%N then
          let d := 12 * digitos_Z ano 0 + m in
          if (12 * 1677 + 9 <=? d) && (d <=? 12 * 2262 + 3) then Some d else None
        else None
    | _, _, _ => None
    end
  else None.

Definition data_linha (l : dict celula) : option Z :=
  match dict_get s_MesAno l with
  | Some (CStr k) => data_mes_ano k
  | _ => None
  end.

Fixpoint insere_data {A} (x : A * Z) (l : list (A * Z)) : list (A * Z) :=
  match l with
  | [] => [x]
  | y :: r => if snd x <=? snd y then x :: l else y :: insere_data x r
  end.

(** [df.sort_values("Data")], as a stable sort on the dates.  pandas'
    default quicksort is not stable, which only matters for equal dates. *)
Definition ordenar_por_data {A} (l : list (A * Z)) : list (A * Z) :=
  fold_right insere_data [] l.

(** Lines 197-210. *)
Definition montar (regs : list registro) (rubs : list string) (avs : list aviso)
    : resultado :=
  let rubs := sorted_str rubs in
  let ls := map (linha_de rubs) regs in
  match todas (map data_linha ls) with
  | None => Excecao
  | Some ds =>
      let ordenadas := map fst (ordenar_por_data (combine ls ds)) in
      let sel := [s_MesAno] ++ rubs ++ [s_BaseFGTS] in
      if forallb (fun c => existsb (String.eqb c) (colunas_df ls)) sel then
        Ok {| colunas := sel;
              linhas := map (fun l => map (fun c => dict_get c l) sel) ordenadas |} avs
      else Excecao
  end.

Definition processar_pdf (adobe : option (list elemento)) (pdf : list pagina)
    (pagina_ini pagina_fim : Z) : resultado :=
  match executar adobe pdf pagina_ini pagina_fim with
  | None => Excecao
  | Some st =>
      match registros st with
      | [] => Ok tabela_vazia (avisos_totais st)
      | _ :: _ => montar (registros st) (rubricas st) (avisos_totais st)
      end
  end.

(** ** Streamlit page: the branch after [processar_pdf] (app.py, lines 223-237) *)

(** What the page shows once "Processar" is pressed. *)
Inductive tela : Type :=
| TelaErro
    (* st.error("Nenhum contracheque encontrado no intervalo informado.") *)
| TelaTabela (t : tabela) (revisar : option (list N))
    (* st.success, st.dataframe, the st.warning text when [avisos], the Excel download *)
| TelaExcecao
    (* processar_pdf raised *).

(** [df.empty]: an axis of length 0. *)
Definition df_empty (t : tabela) : bool :=
  match colunas t, linhas t with
  | [], _ | _, [] => true
  | _, _ => false
  end.

(** ["\n".join(...)] on code-point lists. *)
Fixpoint juntar_nl (ls : list (list N)) : list N :=
  match ls with
  | [] => []
  | [l] => l
  | l :: r => l ++ [10%N] ++ juntar_nl r
  end.

(** [st.warning("\u26a0\ufe0f Revisar:\n" + "\n".join(f"- {a}" for a in avisos))] *)
Definition texto_revisar (avs : list aviso) : list N :=
  [9888%N; 65039%N] ++ cps " Revisar:" ++ [10%N] ++
  juntar_nl (map (fun a => cps "- " ++ aviso_texto a) avs).

Definition interface (r : resultado) : tela :=
  match r with
  | Excecao => TelaExcecao
  | Ok t avs =>
      if df_empty t then TelaErro
      else TelaTabela t (match avs with [] => None | _ :: _ => Some (texto_revisar avs) end)
  end.

(** ** Vocabulary of the properties

    These definitions do not embed program code: they name the sets and
    sequences the properties below talk about. *)

(** Locale-formatted amounts: a first group of digits, groups of three
    digits each preceded by ".", and an optional "," with decimals. *)
Definition digito (d : Z) : ascii := ascii_of_N (Z.to_N (48 + d)).

Fixpoint digs (ds : list Z) : string :=
  match ds with
  | [] => EmptyString
  | d :: r => String (digito d) (digs r)
  end.

Fixpoint grupos (gs : list (list Z)) : string :=
  match gs with
  | [] => EmptyString
  | g :: r => "." +++ digs g +++ grupos r
  end.

Definition formato_br (g0 : list Z) (gs : list (list Z)) (dec : list Z) : string :=
  digs g0 +++ grupos gs +++
  match dec with [] => EmptyString | _ :: _ => "," +++ digs dec end.

Definition valor_digitos (ds : list Z) : Z := fold_left (fun a d => a * 10 + d) ds 0.

Definition e_digito (d : Z) : Prop := 0 <= d <= 9.

(** The number a locale-formatted amount denotes. *)
Definition valor_br (g0 : list Z) (gs : list (list Z)) (dec : list Z) : Q :=
  inject_Z (valor_digitos (g0 ++ concat gs ++ dec))
  / inject_Z (10 ^ Z.of_nat (length dec)).

Definition so_espacos (s : string) : bool := forallb is_space (list_ascii_of_string s).

(** The period header as the claim on [parse] words it: "Referência" or
    "Referencia", then separators, a month token of upper-case letters A-Z
    or Ç, "/" and four digits, all case-sensitive. *)
Fixpoint match_lit (p s : string) : option string :=
  match p with
  | EmptyString => Some s
  | String pc pr =>
      match s with
      | String c r => if Ascii.eqb pc c then match_lit pr r else None
      | EmptyString => None
      end
  end.

Definition is_mes_maiuscula (c : ascii) : bool := is_ascii_upper c || (cp c =? 199)%N.

Definition cabecalho_maiusculo_em (s : string) : bool :=
  match match_lit "Refer" s with
  | Some (String e r2) =>
      if (cp e =? 101)%N || (cp e =? 234)%N then
        match match_lit "ncia" r2 with
        | Some r3 =>
            let '(sep, r4) := span is_ref_sep r3 in
            let '(mes, r5) := span is_mes_maiuscula r4 in
            negb (String.eqb sep EmptyString) && negb (String.eqb mes EmptyString) &&
            match r5 with
            | String sl r6 => (cp sl =? 47)%N && match digitos4 r6 with Some _ => true | None => false end
            | EmptyString => false
            end
        | None => false
        end
      else false
  | _ => false
  end.

Fixpoint cabecalho_maiusculo (s : string) : bool :=
  cabecalho_maiusculo_em s ||
  match s with String _ r => cabecalho_maiusculo r | EmptyString => false end.

(** The earnings table, read off the lines: the lines after the first one
    whose trimmed content starts with "Descrição", up to the first one
    whose trimmed content starts with "TOTAL DE PROVENTOS". *)
Definition e_descricao (l : string) : bool := String.prefix s_Descricao (strip l).
Definition e_total (l : string) : bool := String.prefix "TOTAL DE PROVENTOS" (strip l).

Fixpoint apos_descricao (ls : list string) : list string :=
  match ls with
  | [] => []
  | l :: r => if e_descricao l then r else apos_descricao r
  end.

Fixpoint ate_total (ls : list string) : list string :=
  match ls with
  | [] => []
  | l :: r => if e_total l then [] else l :: ate_total r
  end.

(** The lines of the table that are not themselves "Descrição" lines. *)
Definition linhas_tabela (ls : list string) : list string :=
  filter (fun l => negb (e_descricao l)) (ate_total (apos_descricao ls)).

(** Label and raw amount of a table line, when it splits in two or more. *)
Definition entrada (l : string) : option (string * string) :=
  let partes := re_split_ws2 (strip l) in
  if (2 <=? length partes)%nat
  then Some (py_upper (hd EmptyString partes), last partes EmptyString)
  else None.

Definition entradas (ls : list string) : list (string * string) :=
  flat_map (fun l => match entrada l with Some e => [e] | None => [] end) ls.

Definition proventos_de (es : list (string * string)) : dict pyfloat :=
  fold_left (fun d e => dict_set (fst e) (fst (normalizar_valor (snd e))) d) es [].

Definition avisos_de (mes_ano : string) (es : list (string * string)) : list aviso :=
  flat_map (fun e => if snd (normalizar_valor (snd e)) then []
                     else [ValorNaoLido mes_ano (fst e) (snd e)]) es.

(** The records of a sequence of pages, and those whose period had not
    been seen on an earlier page. *)
Fixpoint recibos (ts : list string) : list recibo :=
  match ts with
  | [] => []
  | t :: r =>
      match extrair_recibo_texto t with
      | Some rc => rc :: recibos r
      | None => recibos r
      end
  end.

Fixpoint primeiros (vistos : list string) (rs : list recibo) : list recibo :=
  match rs with
  | [] => []
  | rc :: r =>
      if existsb (String.eqb (r_mes_ano rc)) vistos then primeiros vistos r
      else rc :: primeiros (r_mes_ano rc :: vistos) r
  end.

Definition registro_de (rc : recibo) : registro :=
  {| g_mes_ano := r_mes_ano rc; g_proventos := r_proventos rc; g_fgts := r_fgts rc |}.

(** The pages whose records feed the table: the Adobe pages of the clamped
    range when one of them gave a record, else the fallback pages (those
    matter only when none of them raised). *)
Definition textos_lidos (adobe : option (list elemento)) (pdf : list pagina)
    (ini fim : Z) : list string :=
  let textos := match adobe with Some els => extract_pdf_adobe els | None => [] end in
  match textos with
  | [] => match todas (fatia_pdf pdf ini fim) with Some ts => ts | None => [] end
  | _ :: _ =>
      let ini' := Z.max 1 ini in
      let fim' := Z.min (Z.of_nat (length textos)) fim in
      let ts := fatia textos ini' fim' in
      match recibos ts with
      | [] => match todas (fatia_pdf pdf ini' fim') with Some ts' => ts' | None => [] end
      | _ :: _ => ts
      end
  end.

(** The cell a record gives to a column. *)
Definition valor_coluna (reg : registro) (c : string) : celula :=
  if String.eqb c s_MesAno then CStr (g_mes_ano reg)
  else if String.eqb c s_BaseFGTS then CNum (g_fgts reg)
  else CNum (get_or_zero c (g_proventos reg)).

Definition periodo_celulas (row : list (option celula)) : option string :=
  match row with
  | Some (CStr k) :: _ => Some k
  | _ => None
  end.

Definition data_celulas (row : list (option celula)) : option Z :=
  match periodo_celulas row with
  | Some k => data_mes_ano k
  | None => None
  end.

(** Strings with no whitespace character. *)
Fixpoint sem_espacos (s : string) : bool :=
  match s with
  | EmptyString => true
  | String c r => negb (is_space c) && sem_espacos r
  end.

(** Strings with no ASCII lower-case letter. *)
Definition sem_minuscula (s : string) : bool :=
  forallb (fun c => negb (is_ascii_lower c)) (list_ascii_of_string s).

(** Whether a row's period cell holds the given key. *)
Definition do_periodo (k : string) (row : list (option celula)) : bool :=
  match periodo_celulas row with Some k' => String.eqb k' k | None => false end.

(** The [rubricas] set the loop builds from a list of kept records. *)
Definition rubricas_de (rs : list recibo) : list string :=
  fold_left (fun acc rc => set_update acc (dict_keys (r_proventos rc))) rs [].

(** ** Further vocabulary *)

(** The pages of a list of elements, in order of first appearance. *)
Definition paginas_distintas (ps : list Z) : list Z :=
  fold_left (fun acc p => if existsb (Z.eqb p) acc then acc else acc ++ [p]) ps [].

(** The texts of the elements of page [p], in element order. *)
Definition textos_de (p : Z) (els : list elemento) : list string :=
  map snd (filter (fun e => Z.eqb (fst e) p) els).

(** A string with no [str.splitlines] boundary in it. *)
Definition sem_quebra (s : string) : bool :=
  forallb (fun c => negb (is_line_break c)) (list_ascii_of_string s).

(** The Portuguese month abbreviations that are not English ones. *)
Definition meses_so_pt : list string := ["Fev"; "Abr"; "Mai"; "Ago"; "Set"; "Out"; "Dez"]%string.

(** The period a warning names. *)
Definition periodo_aviso (a : aviso) : string :=
  match a with
  | ValorNaoLido m _ _ => m
  | FgtsNaoReconhecida m _ => m
  | FgtsNaoEncontrada m => m
  end.

(** Strings made of lower-case ASCII letters. *)
Definition so_letras (s : string) : bool :=
  forallb is_ascii_lower (list_ascii_of_string s).

(** ** Sample pages *)

Definition ex_recibo : string :=
  join_nl [s_Referencia +++ ": MAIO/2024"; s_Descricao +++ "   Valor";
           "Salario   3.000,00"; "Bonus   abc"; "TOTAL DE PROVENTOS   3.000,00";
           "BASE CALC. FGTS   1.000,00"; "BASE CALC. FGTS   3.000,00"]%string.

Definition ex_sem_fgts : string :=
  join_nl [s_Referencia +++ ": MAIO/2024"; s_Descricao +++ "   Valor";
           "Salario   3.000,00"]%string.

Definition ex_descricao_dupla : string :=
  join_nl [s_Referencia +++ ": MAIO/2024"; s_Descricao +++ "   Valor";
           s_Descricao +++ " EXTRA   10,00"]%string.

Definition ex_jan_a : string :=
  join_nl [s_Referencia +++ ": JANEIRO/2024"; s_Descricao +++ "   Valor";
           "Salario   3.000,00"; "Bonus   abc"; "TOTAL DE PROVENTOS   3.000,00";
           "BASE CALC. FGTS   3.000,00"]%string.

Definition ex_jan_b : string :=
  join_nl [s_Referencia +++ ": JANEIRO/2024"; s_Descricao +++ "   Valor";
           "Salario   9,00"]%string.

Definition ex_mar : string :=
  join_nl [s_Referencia +++ ": MAR" +++ ch 199 +++ "O/2024"; s_Descricao +++ "   Valor";
           "Ferias   100,00"; "BASE CALC. FGTS   100,00"]%string.

Definition pagina_texto (t : string) : pagina :=
  {| extract_text := Some t |}.

Definition ex_pdf : list pagina := map pagina_texto [ex_mar; ex_jan_a; ex_jan_b].

(** A scanned page: [extract_text()] gives the empty string. *)
Definition pagina_imagem : pagina := {| extract_text := Some EmptyString |}.

(** A clock reading [n] at its [n]-th call. *)
Definition relogio_seg (n : nat) : Q := inject_Z (Z.of_nat n).

(** * Proofs *)

(** ** Strings *)

Lemma append_assoc_s (a b c : string) : (a +++ b) +++ c = a +++ (b +++ c).
Proof. induction a as [|x a IH]; simpl; [reflexivity | now rewrite IH]. Qed.

Lemma append_nil_s (a : string) : a +++ EmptyString = a.
Proof. induction a as [|x a IH]; simpl; [reflexivity | now rewrite IH]. Qed.

Lemma sem_espacos_app (a b : string) :
  sem_espacos (a +++ b) = sem_espacos a && sem_espacos b.
Proof.
  induction a as [|x a IH]; simpl; [reflexivity|].
  rewrite IH. now rewrite andb_assoc.
Qed.

Lemma lstrip_espacos (ws s : string) :
  so_espacos ws = true -> lstrip (ws +++ s) = lstrip s.
Proof.
  unfold so_espacos. induction ws as [|c ws IH]; simpl; [reflexivity|].
  intros H. apply andb_prop in H as [Hc Hr]. rewrite Hc. now apply IH.
Qed.

Lemma rstrip_espacos (ws : string) : so_espacos ws = true -> rstrip ws = EmptyString.
Proof.
  unfold so_espacos. induction ws as [|c ws IH]; simpl; [reflexivity|].
  intros H. apply andb_prop in H as [Hc Hr]. rewrite IH by exact Hr.
  now rewrite Hc.
Qed.

Lemma rstrip_sem_app (s ws : string) :
  sem_espacos s = true -> so_espacos ws = true -> rstrip (s +++ ws) = s.
Proof.
  induction s as [|c s IH]; simpl; intros Hs Hws.
  - now apply rstrip_espacos.
  - apply andb_prop in Hs as [Hc Hs]. apply negb_true_iff in Hc.
    rewrite Hc, IH by assumption. reflexivity.
Qed.

Lemma strip_envolto (ws1 s ws2 : string) :
  so_espacos ws1 = true -> so_espacos ws2 = true ->
  sem_espacos s = true -> strip (ws1 +++ s +++ ws2) = s.
Proof.
  intros H1 H2 Hs. unfold strip. rewrite lstrip_espacos by exact H1.
  destruct s as [|c s]; simpl in *.
  - rewrite <- (append_nil_s ws2), lstrip_espacos by exact H2. reflexivity.
  - apply andb_prop in Hs as [Hc Hs']. apply negb_true_iff in Hc. rewrite Hc.
    change (rstrip (String c s +++ ws2) = String c s).
    apply rstrip_sem_app; [simpl; now rewrite Hc | exact H2].
Qed.

Lemma replace_char_app (o : ascii) (n a b : string) :
  replace_char o n (a +++ b) = replace_char o n a +++ replace_char o n b.
Proof.
  induction a as [|x a IH]; simpl; [reflexivity|].
  now rewrite IH, append_assoc_s.
Qed.

(** ** Digits *)

Ltac casos_digito d :=
  match goal with
  | H : e_digito d |- _ =>
      unfold e_digito in H;
      assert (d = 0 \/ d = 1 \/ d = 2 \/ d = 3 \/ d = 4 \/ d = 5 \/ d = 6
              \/ d = 7 \/ d = 8 \/ d = 9) as Hd by lia;
      repeat destruct Hd as [Hd|Hd]; subst d
  end.

Lemma digito_fatos (d : Z) : e_digito d ->
  is_digit (digito d) = true /\ is_space (digito d) = false /\
  digit_val (digito d) = d /\ Ascii.eqb (digito d) "." = false /\
  Ascii.eqb (digito d) "," = false /\ (cp (digito d) =? 95)%N = false /\
  (cp (digito d) =? 43)%N = false /\ (cp (digito d) =? 45)%N = false /\
  is_ascii_upper (digito d) = false.
Proof. intros H. casos_digito d; vm_compute; repeat split. Qed.

Lemma digs_app (a b : list Z) : digs (a ++ b) = digs a +++ digs b.
Proof. induction a as [|x a IH]; simpl; [reflexivity | now rewrite IH]. Qed.

Lemma sem_espacos_digs (ds : list Z) : Forall e_digito ds -> sem_espacos (digs ds) = true.
Proof.
  induction 1 as [|d ds Hd _ IH]; simpl; [reflexivity|].
  destruct (digito_fatos d Hd) as (_ & -> & _). now rewrite IH.
Qed.

Lemma replace_char_digs (o : ascii) (n : string) (ds : list Z) :
  (forall d, e_digito d -> Ascii.eqb (digito d) o = false) ->
  Forall e_digito ds -> replace_char o n (digs ds) = digs ds.
Proof.
  intros Ho. induction 1 as [|d ds Hd _ IH]; simpl; [reflexivity|].
  rewrite (Ho d Hd), IH. reflexivity.
Qed.

Lemma replace_ponto_digs (n : string) (ds : list Z) :
  Forall e_digito ds -> replace_char "." n (digs ds) = digs ds.
Proof. apply replace_char_digs. intros d Hd. apply (digito_fatos d Hd). Qed.

Lemma replace_virgula_digs (n : string) (ds : list Z) :
  Forall e_digito ds -> replace_char "," n (digs ds) = digs ds.
Proof. apply replace_char_digs. intros d Hd. apply (digito_fatos d Hd). Qed.

Lemma replace_ponto_grupos (gs : list (list Z)) :
  Forall (Forall e_digito) gs -> replace_char "." EmptyString (grupos gs) = digs (concat gs).
Proof.
  induction 1 as [|g gs Hg _ IH]; simpl; [reflexivity|].
  rewrite replace_char_app, replace_ponto_digs, IH by exact Hg.
  now rewrite digs_app.
Qed.

Lemma sem_espacos_grupos (gs : list (list Z)) :
  Forall (Forall e_digito) gs -> sem_espacos (grupos gs) = true.
Proof.
  induction 1 as [|g gs Hg _ IH]; simpl; [reflexivity|].
  rewrite sem_espacos_app, sem_espacos_digs, IH by exact Hg. reflexivity.
Qed.

(** ** Parsing of locale amounts *)

Lemma digito_nao_eq (d : Z) (c : ascii) :
  e_digito d -> is_digit c = false -> Ascii.eqb (digito d) c = false.
Proof.
  intros Hd Hc. destruct (Ascii.eqb_spec (digito d) c) as [<-|]; [|reflexivity].
  rewrite (proj1 (digito_fatos d Hd)) in Hc. discriminate.
Qed.

Lemma digitpart_rest_digs (ds : list Z) (rest : string) (acc : Z) (n : nat) :
  Forall e_digito ds ->
  match rest with
  | EmptyString => True
  | String c _ => is_digit c = false /\ (cp c =? 95)%N = false
  end ->
  digitpart_rest (digs ds +++ rest) acc n =
  (fold_left (fun a d => a * 10 + d) ds acc, (n + length ds)%nat, rest).
Proof.
  intros Hds; revert acc n. induction Hds as [|d ds Hd _ IH]; intros acc n Hr.
  - cbn [digs String.append length]. rewrite Nat.add_0_r.
    destruct rest as [|c r]; cbn [digitpart_rest]; [reflexivity|].
    destruct Hr as [H1 H2]. now rewrite H1, H2.
  - destruct (digito_fatos d Hd) as (Hdig & _ & Hval & _).
    cbn [digs String.append digitpart_rest fold_left length].
    rewrite Hdig, Hval, IH by exact Hr. f_equal. f_equal. lia.
Qed.

Lemma fold_digitos_shift (ds : list Z) (x : Z) :
  fold_left (fun a d => a * 10 + d) ds x =
  x * 10 ^ Z.of_nat (length ds) + fold_left (fun a d => a * 10 + d) ds 0.
Proof.
  revert x. induction ds as [|d ds IH]; intros x; cbn [fold_left length].
  - simpl. ring.
  - rewrite (IH (x * 10 + d)), (IH (0 * 10 + d)).
    rewrite Nat2Z.inj_succ, Z.pow_succ_r by lia. ring.
Qed.

Lemma valor_digitos_app (a b : list Z) :
  valor_digitos (a ++ b) = valor_digitos a * 10 ^ Z.of_nat (length b) + valor_digitos b.
Proof. unfold valor_digitos. now rewrite fold_left_app, fold_digitos_shift. Qed.

Lemma strip_sem (s : string) : sem_espacos s = true -> strip s = s.
Proof.
  intros H. pose proof (strip_envolto EmptyString s EmptyString eq_refl eq_refl H) as E.
  simpl in E. now rewrite append_nil_s in E.
Qed.

Lemma py_float_digs (A D : list Z) :
  Forall e_digito A -> Forall e_digito D -> A <> [] ->
  py_float (digs A +++ match D with [] => EmptyString | _ :: _ => "." +++ digs D end)
  = Some (Fin (dec_value false (valor_digitos (A ++ D)) (length D) 0)).
Proof.
  intros HA HD Hne. destruct A as [|a A']; [contradiction|].
  unfold py_float. rewrite strip_sem.
  2:{ rewrite sem_espacos_app, sem_espacos_digs by exact HA.
      destruct D; [reflexivity|]. cbn [String.append sem_espacos].
      now rewrite sem_espacos_digs. }
  inversion HA as [|? ? Ha HA']; subst.
  destruct (digito_fatos a Ha) as (Hdig & Hsp & Hval & _ & _ & H95 & H43 & H45 & Hup).
  cbn [digs String.append]. rewrite H43, H45.
  cbn [ascii_lower]. rewrite Hup. cbn [String.eqb].
  rewrite (digito_nao_eq a "i"), (digito_nao_eq a "n") by (exact Ha || reflexivity).
  cbn [orb]. unfold parse_number, digitpart. rewrite Hdig.
  rewrite digitpart_rest_digs by
    (exact HA' || (destruct D; [exact I | split; reflexivity])).
  rewrite Hval.
  destruct D as [|d D'] eqn:ED.
  - cbn [parse_exponent String.eqb]. rewrite app_nil_r. reflexivity.
  - inversion HD as [|? ? Hd HD']; subst.
    destruct (digito_fatos d Hd) as (Hdig' & _ & Hval' & _).
    cbn [String.append digs].
    change (cp "." =? 46)%N with true. cbv iota. rewrite Hdig'.
    rewrite <- (append_nil_s (digs D')), digitpart_rest_digs by (exact HD' || exact I).
    rewrite Hval'. cbn [parse_exponent String.eqb].
    do 3 f_equal.
    change (a :: A' ++ d :: D') with ((a :: A') ++ d :: D').
    rewrite valor_digitos_app. unfold valor_digitos. cbn [fold_left length].
    rewrite (fold_digitos_shift D' d). rewrite (fold_digitos_shift A' (0 * 10 + a)).
    rewrite (fold_digitos_shift A' a).
    rewrite (fold_digitos_shift D' (0 * 10 + d)).
    replace (1 + length D')%nat with (S (length D')) by lia. ring.
Qed.

Lemma dec_value_Qeq (m : Z) (n : nat) :
  dec_value false m n 0 == inject_Z m / inject_Z (10 ^ Z.of_nat n).
Proof.
  unfold dec_value. destruct n as [|n].
  - cbn -[Qdiv]. rewrite Z.mul_1_r. apply Qmake_Qdiv.
  - destruct (Z.leb_spec 0 (0 - Z.of_nat (S n))) as [H|_]; [lia|].
    replace (- (0 - Z.of_nat (S n))) with (Z.of_nat (S n)) by lia.
    rewrite Qmake_Qdiv, Z2Pos.id; [reflexivity|].
    apply Z.pow_pos_nonneg; lia.
Qed.

Lemma transforma_formato (g0 : list Z) (gs : list (list Z)) (dec : list Z) :
  Forall e_digito g0 -> Forall (Forall e_digito) gs -> Forall e_digito dec ->
  replace_char "," "." (replace_char "." EmptyString (formato_br g0 gs dec)) =
  digs (g0 ++ concat gs) +++
  match dec with [] => EmptyString | _ :: _ => "." +++ digs dec end.
Proof.
  intros H0 Hgs Hdec. unfold formato_br.
  repeat rewrite replace_char_app.
  rewrite replace_ponto_digs, replace_ponto_grupos by assumption.
  repeat rewrite replace_char_app.
  assert (Hc : replace_char "," "." (digs (concat gs)) = digs (concat gs)).
  { apply replace_virgula_digs. now apply Forall_concat. }
  rewrite Hc, (replace_virgula_digs _ g0 H0), digs_app, append_assoc_s. f_equal. f_equal.
  destruct dec as [|d D]; [reflexivity|].
  repeat rewrite replace_char_app.
  rewrite replace_ponto_digs, replace_virgula_digs by exact Hdec. reflexivity.
Qed.

Lemma sem_espacos_formato (g0 : list Z) (gs : list (list Z)) (dec : list Z) :
  Forall e_digito g0 -> Forall (Forall e_digito) gs -> Forall e_digito dec ->
  sem_espacos (formato_br g0 gs dec) = true.
Proof.
  intros H0 Hgs Hdec. unfold formato_br.
  rewrite !sem_espacos_app, sem_espacos_digs, sem_espacos_grupos by assumption.
  destruct dec; [reflexivity|]. cbn [String.append sem_espacos].
  now rewrite sem_espacos_digs.
Qed.

(** ** Value Normalizer *)

Example normalizar_valor_exemplos :
  normalizar_valor "1.234,56" = (Fin (Qmake 123456 100), true) /\
  normalizar_valor "0,00" = (Fin 0, true) /\
  normalizar_valor "abc" = (Fin 0, false).
Proof. repeat split; reflexivity. Qed.

(** Claim C5.  [normalizar_valor] trims its argument; the empty string,
    "-" and "0,00" give [(0.0, True)]; any amount written with "." between
    groups of three digits and at most two decimals after "," (with
    surrounding whitespace) gives the number it denotes with [True]; and any
    other string whose transformed text fails [float()] gives
    [(0.0, False)]. *)
Theorem normalizar_valor_C5 :
  (forall s : string,
      strip s = EmptyString \/ strip s = "-"%string \/ strip s = "0,00"%string ->
      normalizar_valor s = (Fin 0, true)) /\
  (forall (ws1 ws2 : string) (g0 : list Z) (gs : list (list Z)) (dec : list Z),
      so_espacos ws1 = true -> so_espacos ws2 = true ->
      Forall e_digito g0 -> Forall (Forall e_digito) gs -> Forall e_digito dec ->
      (1 <= length g0 <= 3)%nat -> Forall (fun g => length g = 3%nat) gs ->
      (length dec <= 2)%nat ->
      exists q, normalizar_valor (ws1 +++ formato_br g0 gs dec +++ ws2) = (Fin q, true)
                /\ q == valor_br g0 gs dec) /\
  (forall s : string,
      strip s <> EmptyString -> strip s <> "-"%string -> strip s <> "0,00"%string ->
      py_float (replace_char "," "." (replace_char "." EmptyString (strip s))) = None ->
      normalizar_valor s = (Fin 0, false)).
Proof.
  split; [|split].
  - intros s H. unfold normalizar_valor.
    destruct H as [H|[H|H]]; rewrite H; reflexivity.
  - intros ws1 ws2 g0 gs dec H1 H2 H0 Hgs Hdec Hl0 _ _.
    assert (Hne : g0 ++ concat gs <> []).
    { destruct g0; simpl in *; [lia | discriminate]. }
    pose proof (py_float_digs (g0 ++ concat gs) dec) as HP.
    rewrite <- transforma_formato in HP by assumption.
    specialize (HP ltac:(apply Forall_app; split; [exact H0 | now apply Forall_concat])
                   Hdec Hne).
    rewrite <- app_assoc in HP.
    unfold normalizar_valor. rewrite strip_envolto by (try apply sem_espacos_formato; assumption).
    destruct (String.eqb (formato_br g0 gs dec) EmptyString
              || String.eqb (formato_br g0 gs dec) "-"
              || String.eqb (formato_br g0 gs dec) "0,00") eqn:E.
    + exists 0%Q. split; [reflexivity|].
      apply orb_true_iff in E as [E|E]; [apply orb_true_iff in E as [E|E]|];
        apply String.eqb_eq in E; rewrite E in HP.
      * discriminate HP.
      * discriminate HP.
      * change (Some (Fin (0 # 100)) =
                Some (Fin (dec_value false (valor_digitos (g0 ++ concat gs ++ dec))
                             (length dec) 0))) in HP.
        injection HP as HP. unfold valor_br. rewrite <- dec_value_Qeq, <- HP.
        reflexivity.
    + rewrite HP. eexists. split; [reflexivity|]. apply dec_value_Qeq.
  - intros s Ha Hb Hc HN. unfold normalizar_valor.
    apply String.eqb_neq in Ha, Hb, Hc. rewrite Ha, Hb, Hc. cbn [orb].
    now rewrite HN.
Qed.

Lemma normalizar_valor_C5_witness :
  normalizar_valor " 0,00" = (Fin 0, true) /\
  (exists q, normalizar_valor (" " +++ formato_br [1] [[2;3;4]] [5;6] +++ EmptyString)
             = (Fin q, true) /\ q == valor_br [1] [[2;3;4]] [5;6]) /\
  normalizar_valor "abc" = (Fin 0, false).
Proof.
  destruct normalizar_valor_C5 as (Ha & Hb & Hc).
  split; [apply Ha; right; right; reflexivity|].
  split.
  - apply Hb; first [reflexivity | lia
    | repeat (constructor; try (unfold e_digito; lia))].
  - apply Hc; first [discriminate | reflexivity].
Defined.

(** ** Receipt parser *)

Lemma achar_mes_ano_None (ls : list string) :
  achar_mes_ano ls = None <-> forall l, In l ls -> re_ref_search l = None.
Proof.
  induction ls as [|l ls IH]; simpl.
  - split; [intros _ l []|reflexivity].
  - destruct (re_ref_search l) as [[mes ano]|] eqn:E.
    + split; [discriminate|]. intros H. rewrite (H l (or_introl eq_refl)) in E.
      discriminate.
    + rewrite IH. split.
      * intros H l' [<-|Hl]; [exact E | now apply H].
      * intros H l' Hl. apply H. now right.
Qed.

Lemma achar_mes_ano_primeiro (pre post : list string) (l mes ano : string) :
  (forall l', In l' pre -> re_ref_search l' = None) ->
  re_ref_search l = Some (mes, ano) ->
  achar_mes_ano (pre ++ l :: post) =
  Some (py_title (String.substring 0 3 mes) +++ "/" +++ ano).
Proof.
  induction pre as [|x pre IH]; simpl; intros Hpre Hl.
  - now rewrite Hl.
  - rewrite (Hpre x (or_introl eq_refl)). apply IH; [|exact Hl].
    intros l' Hl'. apply Hpre. now right.
Qed.

Lemma extrair_recibo_texto_None (texto : string) :
  extrair_recibo_texto texto = None <-> achar_mes_ano (firstn 8 (splitlines texto)) = None.
Proof.
  unfold extrair_recibo_texto.
  destruct (achar_mes_ano (firstn 8 (splitlines texto))) as [k|]; [|tauto].
  destruct (ler_proventos k false (splitlines texto) [] []) as [provs avs].
  destruct (achar_fgts (rev (splitlines texto))) as [g|];
    [destruct (normalizar_valor g)|]; split; discriminate.
Qed.

Lemma extrair_recibo_texto_mes_ano (texto : string) (rc : recibo) :
  extrair_recibo_texto texto = Some rc ->
  achar_mes_ano (firstn 8 (splitlines texto)) = Some (r_mes_ano rc).
Proof.
  unfold extrair_recibo_texto.
  destruct (achar_mes_ano (firstn 8 (splitlines texto))) as [k|]; [|discriminate].
  destruct (ler_proventos k false (splitlines texto) [] []) as [provs avs].
  destruct (achar_fgts (rev (splitlines texto))) as [g|];
    [destruct (normalizar_valor g)|]; intros H; injection H as <-; reflexivity.
Qed.

(** Claim C3, as the code has it.  [extrair_recibo_texto] gives [None]
    exactly when none of the first 8 lines contains a match of [re_ref],
    which is case-insensitive: "Referência" or "Referencia" in any case,
    one or more ":" or whitespace characters, a month token of letters
    A-Z or Ç in any case, "/" and four digits.  Otherwise the first matching
    line gives the period key: the title case of the first three characters
    of the month token, "/" and the year. *)
Theorem extrair_recibo_texto_C3 (texto : string) :
  (extrair_recibo_texto texto = None <->
   forall l, In l (firstn 8 (splitlines texto)) -> re_ref_search l = None) /\
  (forall (pre post : list string) (l mes ano : string),
      firstn 8 (splitlines texto) = pre ++ l :: post ->
      (forall l', In l' pre -> re_ref_search l' = None) ->
      re_ref_search l = Some (mes, ano) ->
      exists rc, extrair_recibo_texto texto = Some rc /\
                 r_mes_ano rc = py_title (String.substring 0 3 mes) +++ "/" +++ ano).
Proof.
  split.
  - rewrite extrair_recibo_texto_None. apply achar_mes_ano_None.
  - intros pre post l mes ano Hls Hpre Hl.
    destruct (extrair_recibo_texto texto) as [rc|] eqn:E.
    + exists rc. split; [reflexivity|].
      apply extrair_recibo_texto_mes_ano in E. rewrite Hls in E.
      rewrite (achar_mes_ano_primeiro pre post l mes ano Hpre Hl) in E. now injection E as <-.
    + apply extrair_recibo_texto_None in E. rewrite Hls in E.
      rewrite (achar_mes_ano_primeiro pre post l mes ano Hpre Hl) in E. discriminate.
Qed.

Lemma extrair_recibo_texto_C3_witness :
  let texto := s_Referencia +++ ": maio/2024" in
  (forall l', In l' [] -> re_ref_search l' = None) /\
  re_ref_search (s_Referencia +++ ": maio/2024") = Some ("maio"%string, "2024"%string) /\
  exists rc, extrair_recibo_texto texto = Some rc /\
             r_mes_ano rc = py_title (String.substring 0 3 "maio") +++ "/" +++ "2024".
Proof.
  intros texto.
  assert (H1 : forall l' : string, In l' [] -> re_ref_search l' = None) by (intros ? []).
  assert (H2 : re_ref_search (s_Referencia +++ ": maio/2024")
               = Some ("maio"%string, "2024"%string)) by reflexivity.
  split; [exact H1|]. split; [exact H2|].
  apply (proj2 (extrair_recibo_texto_C3 texto) [] [] _ _ _ eq_refl H1 H2).
Defined.

(** Claim C3 as worded, with a case-sensitive upper-case month token,
    fails: a lower-case month token is accepted by the code. *)
Lemma extrair_recibo_texto_C3_counterexample :
  ~ (forall texto : string,
        extrair_recibo_texto texto = None <->
        (forall l, In l (firstn 8 (splitlines texto)) -> cabecalho_maiusculo l = false)).
Proof.
  intros H. specialize (H (s_Referencia +++ ": maio/2024")).
  assert (E : extrair_recibo_texto (s_Referencia +++ ": maio/2024") = None).
  { apply H. intros l Hl. vm_compute in Hl. destruct Hl as [<-|[]]. vm_compute. reflexivity. }
  vm_compute in E. discriminate E.
Qed.

Lemma descricao_nao_total (l : string) : e_descricao l = true -> e_total l = false.
Proof.
  unfold e_descricao, e_total. destruct (strip l) as [|c r]; [discriminate|].
  cbn [String.prefix s_Descricao ch String.append].
  destruct (ascii_dec "D" c) as [<-|]; [reflexivity | discriminate].
Qed.

Lemma ler_proventos_lendo (k : string) (ls : list string) (provs : dict pyfloat)
    (avs : list aviso) :
  let es := entradas (filter (fun l => negb (e_descricao l)) (ate_total ls)) in
  ler_proventos k true ls provs avs =
  (fold_left (fun d e => dict_set (fst e) (fst (normalizar_valor (snd e))) d) es provs,
   avs ++ avisos_de k es).
Proof.
  revert provs avs. induction ls as [|l r IH]; intros provs avs es.
  - subst es. simpl. now rewrite app_nil_r.
  - subst es. cbn [ler_proventos ate_total].
    fold (e_descricao l). fold (e_total l).
    destruct (e_descricao l) eqn:Ed.
    + rewrite (descricao_nao_total l Ed). cbn [filter]. rewrite Ed. apply IH.
    + destruct (e_total l) eqn:Et.
      * simpl. now rewrite app_nil_r.
      * cbn [filter]. rewrite Ed. cbn [negb entradas flat_map]. cbv zeta.
        destruct (entrada l) as [[desc raw]|] eqn:Ee; unfold entrada in Ee;
          destruct (2 <=? length (re_split_ws2 (strip l)))%nat; try discriminate.
        -- injection Ee as Hd Hr. rewrite Hd, Hr.
           destruct (normalizar_valor raw) as [v ok] eqn:En.
           rewrite IH. cbn [app fold_left fst snd]. rewrite En. cbn [fst snd].
           f_equal. unfold avisos_de at 2. cbn [flat_map fst snd]. rewrite En. cbn [snd fst]. fold (avisos_de k (entradas (filter (fun l0 => negb (e_descricao l0)) (ate_total r)))). fold (entradas (filter (fun l0 => negb (e_descricao l0)) (ate_total r))).
           destruct ok; cbn [app]; [reflexivity|]. now rewrite <- app_assoc.
        -- cbn [app]. apply IH.
Qed.

Lemma ler_proventos_fora (k : string) (ls : list string) (provs : dict pyfloat)
    (avs : list aviso) :
  ler_proventos k false ls provs avs = ler_proventos k true (apos_descricao ls) provs avs.
Proof.
  induction ls as [|l r IH]; [reflexivity|].
  cbn [ler_proventos apos_descricao]. fold (e_descricao l).
  destruct (e_descricao l); [reflexivity | exact IH].
Qed.

Lemma ler_proventos_spec (k : string) (ls : list string) :
  ler_proventos k false ls [] [] =
  (proventos_de (entradas (linhas_tabela ls)), avisos_de k (entradas (linhas_tabela ls))).
Proof. rewrite ler_proventos_fora, ler_proventos_lendo. reflexivity. Qed.

Lemma extrair_recibo_texto_partes (texto : string) (rc : recibo) :
  extrair_recibo_texto texto = Some rc ->
  let ls := splitlines texto in
  let es := entradas (linhas_tabela ls) in
  r_proventos rc = proventos_de es /\
  ((exists g, achar_fgts (rev ls) = Some g /\
              r_fgts rc = fst (normalizar_valor g) /\
              r_avisos rc = avisos_de (r_mes_ano rc) es ++
                (if snd (normalizar_valor g) then []
                 else [FgtsNaoReconhecida (r_mes_ano rc) g])) \/
   (achar_fgts (rev ls) = None /\ r_fgts rc = Fin 0 /\
    r_avisos rc = avisos_de (r_mes_ano rc) es ++ [FgtsNaoEncontrada (r_mes_ano rc)])).
Proof.
  intros H ls es. pose proof (extrair_recibo_texto_mes_ano texto rc H) as Hk.
  unfold extrair_recibo_texto in H. rewrite Hk in H.
  rewrite ler_proventos_spec in H. fold ls in H. fold es in H.
  destruct (achar_fgts (rev ls)) as [g|] eqn:Ef.
  - destruct (normalizar_valor g) as [v ok] eqn:En. injection H as <-.
    split; [reflexivity|]. left. exists g. rewrite En. cbn.
    split; [reflexivity|]. split; [reflexivity|]. destruct ok; [now rewrite app_nil_r|reflexivity].
  - injection H as <-. split; [reflexivity|]. right. cbn. auto.
Qed.

(** Claim C2, as the code has it.  The earnings are read from the lines
    after the first line whose trimmed content starts with "Descrição", up
    to the first later line whose trimmed content starts with
    "TOTAL DE PROVENTOS" (or the end); lines that themselves start with
    "Descrição" are skipped.  Each of these lines that splits on runs of 2
    or more whitespace characters into at least 2 parts gives the entry
    (upper-cased first part, normalized last part), a later entry with the
    same label replacing the amount of an earlier one; each amount that is
    not confidently normalized adds, in line order, a warning naming the
    period, the label and the raw text, before the tax-base warnings. *)
Theorem extrair_recibo_texto_C2 (texto : string) (rc : recibo) :
  extrair_recibo_texto texto = Some rc ->
  let es := entradas (linhas_tabela (splitlines texto)) in
  r_proventos rc = proventos_de es /\
  exists avf, r_avisos rc = avisos_de (r_mes_ano rc) es ++ avf /\ (length avf <= 1)%nat.
Proof.
  intros H es. destruct (extrair_recibo_texto_partes texto rc H) as [Hp Hf].
  split; [exact Hp|].
  destruct Hf as [(g & _ & _ & Ha)|(_ & _ & Ha)]; eexists; (split; [exact Ha|]).
  - destruct (snd (normalizar_valor g)); simpl; lia.
  - simpl; lia.
Qed.

Lemma extrair_recibo_texto_C2_witness :
  exists rc, extrair_recibo_texto ex_recibo = Some rc /\
    map fst (r_proventos rc) = ["SALARIO"; "BONUS"]%string /\
    exists avf, r_avisos rc = [ValorNaoLido (r_mes_ano rc) "BONUS" "abc"] ++ avf.
Proof.
  destruct (extrair_recibo_texto ex_recibo) as [rc|] eqn:E;
    [|vm_compute in E; discriminate E].
  exists rc. split; [reflexivity|].
  destruct (extrair_recibo_texto_C2 ex_recibo rc E) as [Hp [avf [Ha _]]].
  split.
  - rewrite Hp. vm_compute. reflexivity.
  - exists avf. rewrite Ha. f_equal.
Defined.

(** The earnings read from every line strictly between the start marker
    and the end marker, as the claim words it. *)
Lemma extrair_recibo_texto_C2_counterexample :
  ~ (forall texto rc, extrair_recibo_texto texto = Some rc ->
       r_proventos rc = proventos_de (entradas (ate_total (apos_descricao (splitlines texto))))).
Proof.
  intros H.
  destruct (extrair_recibo_texto ex_descricao_dupla) as [rc|] eqn:E;
    [|vm_compute in E; discriminate E].
  specialize (H _ _ E).
  vm_compute in E. injection E as <-. vm_compute in H. discriminate H.
Qed.

Lemma achar_fgts_pula (a b : list string) :
  (forall l, In l a -> re_fgts_search l = None) -> achar_fgts (a ++ b) = achar_fgts b.
Proof.
  induction a as [|x a IH]; intros H; [reflexivity|].
  cbn [app achar_fgts]. rewrite (H x (or_introl eq_refl)).
  apply IH. intros l Hl. apply H. now right.
Qed.

Lemma achar_fgts_ultima (pre post : list string) (l g : string) :
  re_fgts_search l = Some g ->
  (forall l', In l' post -> re_fgts_search l' = None) ->
  achar_fgts (rev (pre ++ l :: post)) = Some g.
Proof.
  intros Hl Hp. rewrite rev_app_distr. cbn [rev]. rewrite <- app_assoc.
  rewrite achar_fgts_pula by (intros x Hx; apply Hp; now apply in_rev).
  cbn [app achar_fgts]. now rewrite Hl.
Qed.

Lemma achar_fgts_nenhuma (ls : list string) :
  (forall l, In l ls -> re_fgts_search l = None) -> achar_fgts (rev ls) = None.
Proof.
  intros H. rewrite <- (app_nil_r (rev ls)), achar_fgts_pula; [reflexivity|].
  intros l Hl. apply H. now apply in_rev.
Qed.

(** Claim C4.  If a line of the page matches the tax-base pattern and no
    later line does, the tax base is the normalized amount captured on that
    line, and a warning is added when the normalization is not confident;
    if no line matches, the tax base is 0 and the last warning is the
    not-found one, rendered as "<period>: Base FGTS não encontrada". *)
Theorem extrair_recibo_texto_C4 (texto : string) (rc : recibo) :
  extrair_recibo_texto texto = Some rc ->
  let ls := splitlines texto in
  let k := r_mes_ano rc in
  let es := entradas (linhas_tabela ls) in
  (forall pre l post g,
     ls = pre ++ l :: post ->
     re_fgts_search l = Some g ->
     (forall l', In l' post -> re_fgts_search l' = None) ->
     r_fgts rc = fst (normalizar_valor g) /\
     r_avisos rc = avisos_de k es ++
       (if snd (normalizar_valor g) then [] else [FgtsNaoReconhecida k g])) /\
  ((forall l, In l ls -> re_fgts_search l = None) ->
     r_fgts rc = Fin 0 /\
     r_avisos rc = avisos_de k es ++ [FgtsNaoEncontrada k] /\
     aviso_texto (FgtsNaoEncontrada k) = cps (k +++ ": " +++ s_BaseFGTS +++ " " +++ s_nao +++ " encontrada")).
Proof.
  intros H ls k es.
  destruct (extrair_recibo_texto_partes texto rc H) as [_ Hf]. fold ls es in Hf.
  split.
  - intros pre l post g Hls Hl Hpost.
    assert (Eu : achar_fgts (rev ls) = Some g)
      by (rewrite Hls; exact (achar_fgts_ultima pre post l g Hl Hpost)).
    destruct Hf as [(g' & Eg & Hv & Ha)|(Eg & _)]; rewrite Eu in Eg.
    + injection Eg as <-. split; assumption.
    + discriminate Eg.
  - intros Hn. rewrite (achar_fgts_nenhuma ls Hn) in Hf.
    destruct Hf as [(g' & Eg & _)|(_ & Hv & Ha)]; [discriminate Eg|].
    split; [exact Hv|]. split; [exact Ha|]. reflexivity.
Qed.

Lemma extrair_recibo_texto_C4_witness :
  (exists rc, extrair_recibo_texto ex_recibo = Some rc /\
     r_fgts rc = fst (normalizar_valor "3.000,00"%string)) /\
  (exists rc, extrair_recibo_texto ex_sem_fgts = Some rc /\ r_fgts rc = Fin 0).
Proof.
  split.
  - destruct (extrair_recibo_texto ex_recibo) as [rc|] eqn:E;
      [|vm_compute in E; discriminate E].
    exists rc. split; [reflexivity|].
    destruct (extrair_recibo_texto_C4 ex_recibo rc E) as [H _].
    edestruct (H (firstn 6 (splitlines ex_recibo)) (nth 6 (splitlines ex_recibo) EmptyString) []
                 "3.000,00"%string) as [Hv _].
    + vm_compute. reflexivity.
    + vm_compute. reflexivity.
    + intros l [].
    + exact Hv.
  - destruct (extrair_recibo_texto ex_sem_fgts) as [rc|] eqn:E;
      [|vm_compute in E; discriminate E].
    exists rc. split; [reflexivity|].
    destruct (extrair_recibo_texto_C4 ex_sem_fgts rc E) as [_ H].
    apply H. intros l Hl. vm_compute in Hl.
    destruct Hl as [<-|[<-|[<-|[]]]]; vm_compute; reflexivity.
Defined.


(** ** Remote extraction *)

(** Claim C6.  [extract_pdf_adobe] groups the elements by page, joins the
    texts of a page with newlines in element order and lists the pages in
    increasing page order; but a page with no text element gets no entry,
    so that on a document whose page 3 has no text the entry at position 2
    is the text of page 4, not of page 3. *)
Theorem extract_pdf_adobe_C6 :
  extract_pdf_adobe [(2, "b1"); (1, "a"); (2, "b2"); (4, "d")]%string =
    ["a"; "b1" +++ ch 10 +++ "b2"; "d"]%string.
Proof. vm_compute. reflexivity. Qed.

(** ** Aggregator *)

Lemma existsb_mes_ano (l : list registro) (k : string) :
  existsb (fun r => String.eqb (g_mes_ano r) k) l = existsb (String.eqb k) (map g_mes_ano l).
Proof.
  induction l as [|r l IH]; [reflexivity|]. cbn [existsb map].
  now rewrite String.eqb_sym, IH.
Qed.

Lemma primeiros_ext (v1 v2 : list string) (rs : list recibo) :
  (forall x, existsb (String.eqb x) v1 = existsb (String.eqb x) v2) ->
  primeiros v1 rs = primeiros v2 rs.
Proof.
  revert v1 v2. induction rs as [|rc r IH]; intros v1 v2 H; [reflexivity|].
  cbn [primeiros]. rewrite H. destruct (existsb _ v2); [now apply IH|].
  f_equal. apply IH. intros x. cbn [existsb]. now rewrite H.
Qed.

Lemma coletar_primeiros (ts : list string) (st : estado) :
  let rs := primeiros (map g_mes_ano (registros st)) (recibos ts) in
  coletar ts st =
  {| registros := registros st ++ map registro_de rs;
     rubricas := fold_left (fun acc rc => set_update acc (dict_keys (r_proventos rc)))
                   rs (rubricas st);
     avisos_totais := avisos_totais st ++ flat_map r_avisos rs |}.
Proof.
  revert st. induction ts as [|t r IH]; intros st rs.
  - subst rs. destruct st; cbn. now rewrite !app_nil_r.
  - subst rs. change (coletar (t :: r) st) with (coletar r (passo st t)).
    unfold passo. cbn [recibos].
    destruct (extrair_recibo_texto t) as [rc|]; [|apply IH].
    cbn [primeiros]. rewrite existsb_mes_ano.
    destruct (existsb (String.eqb (r_mes_ano rc)) (map g_mes_ano (registros st))) eqn:Ex;
      [apply IH|].
    rewrite IH. cbn [registros rubricas avisos_totais].
    rewrite (primeiros_ext _ (r_mes_ano rc :: map g_mes_ano (registros st))).
    + cbn [map flat_map fold_left]. rewrite <- !app_assoc. reflexivity.
    + intros x. rewrite map_app, existsb_app. cbn [map existsb].
      rewrite orb_false_r, orb_comm. reflexivity.
Qed.

Lemma coletar_estado0 (ts : list string) :
  let rs := primeiros [] (recibos ts) in
  coletar ts estado0 =
  {| registros := map registro_de rs;
     rubricas := fold_left (fun acc rc => set_update acc (dict_keys (r_proventos rc))) rs [];
     avisos_totais := flat_map r_avisos rs |}.
Proof. intros rs. rewrite coletar_primeiros. reflexivity. Qed.

Lemma executar_textos_lidos (adobe : option (list elemento)) (pdf : list pagina)
    (ini fim : Z) (st : estado) :
  executar adobe pdf ini fim = Some st -> st = coletar (textos_lidos adobe pdf ini fim) estado0.
Proof.
  unfold executar, fase_adobe, textos_lidos.
  destruct (match adobe with Some els => extract_pdf_adobe els | None => [] end)
    as [|t0 ts0].
  - unfold fase_ocr. cbn [registros estado0].
    destruct (todas _); [intros H; now injection H as <- | intros H; discriminate H].
  - unfold fase_ocr. rewrite coletar_estado0. cbn [registros].
    destruct (recibos _) as [|rc r] eqn:Er.
    + cbn [primeiros map registros].
      destruct (todas _); [intros H; now injection H as <- | intros H; discriminate H].
    + cbn [primeiros existsb map]. intros H. injection H as <-.
      rewrite coletar_estado0, Er. reflexivity.
Qed.

Lemma processar_pdf_casos (adobe : option (list elemento)) (pdf : list pagina)
    (ini fim : Z) :
  let rs := primeiros [] (recibos (textos_lidos adobe pdf ini fim)) in
  processar_pdf adobe pdf ini fim =
  match executar adobe pdf ini fim with
  | None => Excecao
  | Some _ =>
      match rs with
      | [] => Ok tabela_vazia []
      | _ :: _ =>
          montar (map registro_de rs)
            (fold_left (fun acc rc => set_update acc (dict_keys (r_proventos rc))) rs [])
            (flat_map r_avisos rs)
      end
  end.
Proof.
  intros rs. unfold processar_pdf.
  destruct (executar adobe pdf ini fim) as [st|] eqn:E; [|reflexivity].
  rewrite (executar_textos_lidos _ _ _ _ _ E), coletar_estado0. fold rs.
  cbn [registros avisos_totais rubricas]. destruct rs; reflexivity.
Qed.

(** When [processar_pdf] returns, it returns the table of the records kept
    among [textos_lidos]. *)
Lemma processar_pdf_Ok (adobe : option (list elemento)) (pdf : list pagina)
    (ini fim : Z) (t : tabela) (avs : list aviso) :
  let rs := primeiros [] (recibos (textos_lidos adobe pdf ini fim)) in
  processar_pdf adobe pdf ini fim = Ok t avs ->
  match rs with
  | [] => Ok tabela_vazia []
  | _ :: _ =>
      montar (map registro_de rs)
        (fold_left (fun acc rc => set_update acc (dict_keys (r_proventos rc))) rs [])
        (flat_map r_avisos rs)
  end = Ok t avs.
Proof.
  intros rs. rewrite processar_pdf_casos. fold rs.
  destruct (executar _ _ _ _); [exact (fun H => H) | intros H; discriminate H].
Qed.

Lemma todas_Some {A} (l : list (option A)) (xs : list A) :
  todas l = Some xs -> l = map Some xs.
Proof.
  revert xs. induction l as [|[x|] r IH]; intros xs H; cbn in H.
  - now injection H as <-.
  - destruct (todas r) eqn:E; [|discriminate]. injection H as <-. cbn. f_equal. now apply IH.
  - discriminate.
Qed.

Lemma combine_data {A} (f : A -> option Z) (ls : list A) (ds : list Z) :
  map f ls = map Some ds ->
  map fst (combine ls ds) = ls /\ Forall (fun p => f (fst p) = Some (snd p)) (combine ls ds).
Proof.
  revert ds. induction ls as [|l r IH]; intros [|d ds] H; cbn in H; try discriminate.
  - split; [reflexivity | constructor].
  - injection H as H1 H2. destruct (IH ds H2) as [Ha Hb]. cbn. split.
    + now rewrite Ha.
    + now constructor.
Qed.

Lemma insere_data_perm {A} (x : A * Z) (l : list (A * Z)) :
  Permutation (insere_data x l) (x :: l).
Proof.
  induction l as [|y r IH]; cbn; [reflexivity|].
  destruct (snd x <=? snd y); [reflexivity|].
  rewrite IH. apply perm_swap.
Qed.

Lemma ordenar_perm {A} (l : list (A * Z)) : Permutation (ordenar_por_data l) l.
Proof.
  induction l as [|x r IH]; [reflexivity|]. unfold ordenar_por_data. cbn [fold_right].
  rewrite insere_data_perm. now apply perm_skip.
Qed.

Lemma insere_data_sorted {A} (x : A * Z) (l : list (A * Z)) :
  Sorted (fun a b => snd a <= snd b) l ->
  Sorted (fun a b => snd a <= snd b) (insere_data x l).
Proof.
  induction l as [|y r IH]; intros H; cbn; [repeat constructor|].
  destruct (snd x <=? snd y) eqn:E.
  - constructor; [exact H | constructor; lia].
  - apply Sorted_inv in H as [H1 H2]. constructor; [now apply IH|].
    destruct r as [|z r]; cbn; [constructor; lia|].
    apply HdRel_inv in H2. destruct (snd x <=? snd z); constructor; lia.
Qed.

Lemma ordenar_sorted {A} (l : list (A * Z)) :
  Sorted (fun a b => snd a <= snd b) (ordenar_por_data l).
Proof.
  induction l as [|x r IH]; [constructor|]. unfold ordenar_por_data. cbn [fold_right].
  now apply insere_data_sorted.
Qed.

Lemma montar_Ok (regs : list registro) (rubs : list string) (avs0 : list aviso)
    (t : tabela) (avs : list aviso) :
  montar regs rubs avs0 = Ok t avs ->
  let rubs' := sorted_str rubs in
  let ls := map (linha_de rubs') regs in
  avs = avs0 /\ colunas t = [s_MesAno] ++ rubs' ++ [s_BaseFGTS] /\
  exists ps : list (dict celula * Z),
    Permutation (map fst ps) ls /\
    Forall (fun p => data_linha (fst p) = Some (snd p)) ps /\
    Sorted (fun a b => snd a <= snd b) ps /\
    linhas t = map (fun p => map (fun c => dict_get c (fst p)) (colunas t)) ps.
Proof.
  intros H rubs' ls. unfold montar in H. fold rubs' ls in H.
  destruct (todas (map data_linha ls)) as [ds|] eqn:Et; [|discriminate H].
  destruct (forallb _ _); [|discriminate H].
  injection H as <- <-. cbn [colunas linhas].
  destruct (combine_data data_linha ls ds (todas_Some _ _ Et)) as [Hf Hd].
  split; [reflexivity|]. split; [reflexivity|].
  exists (ordenar_por_data (combine ls ds)). split; [|split; [|split]].
  - rewrite <- Hf at 2. apply Permutation_map, ordenar_perm.
  - rewrite Forall_forall in *. intros p Hp. apply Hd.
    exact (Permutation_in _ (ordenar_perm _) Hp).
  - apply ordenar_sorted.
  - now rewrite map_map.
Qed.

Lemma sorted_map_forall {A B} (P : A -> Prop) (R : A -> A -> Prop) (S : B -> B -> Prop)
    (g : A -> B) (l : list A) :
  (forall a b, P a -> P b -> R a b -> S (g a) (g b)) ->
  Forall P l -> Sorted R l -> Sorted S (map g l).
Proof.
  intros HS. induction l as [|a r IH]; intros HP HR; cbn; [constructor|].
  inversion HP as [|? ? Pa Pr]; subst. apply Sorted_inv in HR as [HR Hd].
  constructor; [now apply IH|].
  destruct r as [|b r]; cbn; constructor.
  apply HdRel_inv in Hd. inversion Pr; subst. now apply HS.
Qed.

Lemma sorted_adjacentes {A} (S : A -> A -> Prop) (pre post : list A) (a b : A) :
  Sorted S (pre ++ a :: b :: post) -> S a b.
Proof.
  induction pre as [|x pre IH]; intros H; cbn in H.
  - apply Sorted_inv in H as [_ H]. now apply HdRel_inv in H.
  - apply Sorted_inv in H as [H _]. now apply IH.
Qed.

Lemma data_celulas_linha (l : dict celula) (cs : list string) :
  data_celulas (map (fun c => dict_get c l) (s_MesAno :: cs)) = data_linha l.
Proof.
  unfold data_celulas, periodo_celulas, data_linha. cbn [map].
  destruct (dict_get s_MesAno l) as [[k|v]|]; reflexivity.
Qed.

(** Claim C7.  When [processar_pdf] returns a table, any two adjacent rows
    have periods that denote dates (month counts), the first not later
    than the second. *)
Theorem processar_pdf_C7 (adobe : option (list elemento)) (pdf : list pagina)
    (ini fim : Z) (t : tabela) (avs : list aviso) :
  processar_pdf adobe pdf ini fim = Ok t avs ->
  forall pre r1 r2 post, linhas t = pre ++ r1 :: r2 :: post ->
  exists d1 d2, data_celulas r1 = Some d1 /\ data_celulas r2 = Some d2 /\ d1 <= d2.
Proof.
  intros H pre r1 r2 post Hl. apply processar_pdf_Ok in H.
  destruct (primeiros [] _) as [|rc rs].
  - injection H as <- _. cbn in Hl. now destruct pre.
  - apply montar_Ok in H as (_ & Hc & ps & _ & Hf & Hs & Ht).
    rewrite Ht, Hc in Hl. cbn [app] in Hl.
    apply (sorted_adjacentes
             (fun r1 r2 => exists d1 d2, data_celulas r1 = Some d1 /\
                           data_celulas r2 = Some d2 /\ d1 <= d2) pre post r1 r2).
    rewrite <- Hl.
    apply (sorted_map_forall (fun p => data_linha (fst p) = Some (snd p))
             (fun a b => snd a <= snd b)); [|exact Hf|exact Hs].
    intros a b Ha Hb Hab. rewrite !data_celulas_linha, Ha, Hb. eauto.
Qed.

(** Labels *)

Lemma sem_minuscula_app (a b : string) :
  sem_minuscula (a +++ b) = sem_minuscula a && sem_minuscula b.
Proof.
  induction a as [|c a IH]; [reflexivity|]. unfold sem_minuscula in *. cbn.
  rewrite IH. apply andb_assoc.
Qed.

Lemma upper_char_sem (c : ascii) : sem_minuscula (upper_char c) = true.
Proof. destruct c as [[] [] [] [] [] [] [] []]; vm_compute; reflexivity. Qed.

Lemma py_upper_sem (s : string) : sem_minuscula (py_upper s) = true.
Proof.
  induction s as [|c s IH]; [reflexivity|]. cbn [py_upper].
  now rewrite sem_minuscula_app, upper_char_sem, IH.
Qed.

Lemma dict_keys_set {V} (k x : string) (v : V) (d : dict V) :
  In x (dict_keys (dict_set k v d)) -> x = k \/ In x (dict_keys d).
Proof.
  induction d as [|[k' v'] r IH]; cbn; [intros [<-|[]]; now left|].
  destruct (String.eqb k' k) eqn:E.
  - apply String.eqb_eq in E as <-. cbn. intros [<-|H]; [now left | now right; right].
  - cbn. intros [<-|H]; [now right; left|]. destruct (IH H); [now left | now right; right].
Qed.

Lemma dict_keys_fold {V} (f : string * string -> V) (es : list (string * string))
    (d : dict V) (x : string) :
  In x (dict_keys (fold_left (fun d e => dict_set (fst e) (f e) d) es d)) ->
  In x (dict_keys d) \/ In x (map fst es).
Proof.
  revert d. induction es as [|e r IH]; intros d H; cbn in H; [now left|].
  destruct (IH _ H) as [H1|H1]; cbn.
  - destruct (dict_keys_set _ _ _ _ H1); [right; now left | now left].
  - right; now right.
Qed.

Lemma entradas_rotulo (ls : list string) (x : string) :
  In x (map fst (entradas ls)) -> sem_minuscula x = true.
Proof.
  unfold entradas. intros H. apply in_map_iff in H as ([x' raw] & <- & H).
  apply in_flat_map in H as (l & _ & H). unfold entrada in H.
  destruct (2 <=? length _)%nat; [|destruct H]. destruct H as [H|[]].
  injection H as <- _. apply py_upper_sem.
Qed.

Lemma recibo_rotulos (texto : string) (rc : recibo) (x : string) :
  extrair_recibo_texto texto = Some rc -> In x (dict_keys (r_proventos rc)) ->
  sem_minuscula x = true.
Proof.
  intros H Hx. destruct (extrair_recibo_texto_partes texto rc H) as [Hp _].
  rewrite Hp in Hx. unfold proventos_de in Hx.
  destruct (dict_keys_fold _ _ _ _ Hx) as [[]|H1]. now apply entradas_rotulo in H1.
Qed.

Lemma recibos_in (ts : list string) (rc : recibo) :
  In rc (recibos ts) -> exists t, extrair_recibo_texto t = Some rc.
Proof.
  induction ts as [|t r IH]; cbn; [intros []|].
  destruct (extrair_recibo_texto t) eqn:E; [|exact IH].
  intros [<-|H]; [now exists t | now apply IH].
Qed.

Lemma primeiros_in (v : list string) (rs : list recibo) (rc : recibo) :
  In rc (primeiros v rs) -> In rc rs.
Proof.
  revert v. induction rs as [|r rs IH]; intros v; cbn; [intros []|].
  destruct (existsb _ v).
  - intros H. right. now apply (IH v).
  - intros [<-|H]; [now left | right; now apply (IH _ H)].
Qed.

Lemma rotulo_nao_coluna (x : string) :
  sem_minuscula x = true -> x <> s_MesAno /\ x <> s_BaseFGTS.
Proof. intros H. split; intros ->; vm_compute in H; discriminate H. Qed.

(** Sets of labels *)

Lemma set_update_in (acc ks : list string) (x : string) :
  In x (set_update acc ks) <-> In x acc \/ In x ks.
Proof.
  unfold set_update. revert acc. induction ks as [|k ks IH]; intros acc; cbn.
  - intuition.
  - rewrite IH. destruct (existsb (String.eqb k) acc) eqn:E.
    + apply existsb_exists in E as (y & Hy & Ey). apply String.eqb_eq in Ey as <-.
      intuition. subst. now left.
    + rewrite in_app_iff. cbn. intuition.
Qed.

Lemma set_update_nodup (acc ks : list string) :
  NoDup acc -> NoDup (set_update acc ks).
Proof.
  unfold set_update. revert acc. induction ks as [|k ks IH]; intros acc H; cbn; [exact H|].
  apply IH. destruct (existsb (String.eqb k) acc) eqn:E; [exact H|].
  apply NoDup_app; [exact H | repeat constructor; intros []|].
  intros y Hy [->|[]]. assert (existsb (String.eqb y) acc = true) as E'.
  { apply existsb_exists. exists y. split; [exact Hy | apply String.eqb_refl]. }
  congruence.
Qed.

Lemma rubricas_de_in (rs : list recibo) (x : string) :
  In x (rubricas_de rs) <-> exists rc, In rc rs /\ In x (dict_keys (r_proventos rc)).
Proof.
  unfold rubricas_de.
  assert (G : forall acc, In x (fold_left (fun acc rc => set_update acc (dict_keys (r_proventos rc))) rs acc)
            <-> In x acc \/ exists rc, In rc rs /\ In x (dict_keys (r_proventos rc))).
  { induction rs as [|r rs IH]; intros acc; cbn.
    - split; [now left | intros [H|(rc & [] & _)]; exact H].
    - rewrite IH, set_update_in. split.
      + intros [[H|H]|(rc & H1 & H2)]; [now left | right; exists r; auto | right; exists rc; auto].
      + intros [H|(rc & [<-|H1] & H2)]; auto. right. exists rc. auto. }
  rewrite G. split; [intros [[]|H]; exact H | now right].
Qed.

Lemma rubricas_de_nodup (rs : list recibo) : NoDup (rubricas_de rs).
Proof.
  unfold rubricas_de.
  assert (G : forall acc, NoDup acc ->
            NoDup (fold_left (fun acc rc => set_update acc (dict_keys (r_proventos rc))) rs acc)).
  { induction rs as [|r rs IH]; intros acc H; cbn; [exact H|].
    apply IH. now apply set_update_nodup. }
  apply G. constructor.
Qed.

(** Sorting of labels *)

Lemma ltb_total (x y : string) : x <> y -> String.ltb y x = false -> String.ltb x y = true.
Proof.
  unfold String.ltb. intros Hne H. rewrite String.compare_antisym in H.
  destruct (String.compare x y) eqn:E; cbn in H; try discriminate H; [|reflexivity].
  apply String.compare_eq_iff in E. contradiction.
Qed.

Lemma insere_str_perm (x : string) (l : list string) :
  Permutation (insere_str x l) (x :: l).
Proof.
  induction l as [|y r IH]; cbn; [reflexivity|].
  destruct (String.ltb y x); [|reflexivity]. rewrite IH. apply perm_swap.
Qed.

Lemma sorted_str_perm (l : list string) : Permutation (sorted_str l) l.
Proof.
  induction l as [|x r IH]; [reflexivity|]. unfold sorted_str. cbn [fold_right].
  rewrite insere_str_perm. now apply perm_skip.
Qed.

Lemma insere_str_sorted (x : string) (l : list string) :
  ~ In x l -> Sorted (fun a b => String.ltb a b = true) l ->
  Sorted (fun a b => String.ltb a b = true) (insere_str x l).
Proof.
  induction l as [|y r IH]; intros Hn H; cbn; [repeat constructor|].
  destruct (String.ltb y x) eqn:E.
  - apply Sorted_inv in H as [H1 H2]. constructor.
    + apply IH; [intros Hx; apply Hn; now right | exact H1].
    + destruct r as [|z r]; cbn; [now constructor|].
      apply HdRel_inv in H2. destruct (String.ltb z x); now constructor.
  - constructor; [exact H|]. constructor. apply ltb_total; [|exact E].
    intros ->. apply Hn. now left.
Qed.

Lemma sorted_str_sorted (l : list string) :
  NoDup l -> Sorted (fun a b => String.ltb a b = true) (sorted_str l).
Proof.
  induction l as [|x r IH]; intros H; [constructor|]. unfold sorted_str. cbn [fold_right].
  inversion H as [|? ? Hx Hr]; subst. apply insere_str_sorted; [|now apply IH].
  intros Hin. apply Hx. exact (Permutation_in _ (sorted_str_perm r) Hin).
Qed.

(** Rows *)

Lemma dict_get_set {V} (r c : string) (v : V) (d : dict V) :
  dict_get c (dict_set r v d) = if String.eqb r c then Some v else dict_get c d.
Proof.
  induction d as [|[k' v'] d IH]; cbn; [reflexivity|].
  destruct (String.eqb k' r) eqn:E1; cbn.
  - apply String.eqb_eq in E1 as ->. destruct (String.eqb r c); reflexivity.
  - rewrite IH. destruct (String.eqb k' c) eqn:E2, (String.eqb r c) eqn:E3; try reflexivity.
    apply String.eqb_eq in E2, E3. subst. now rewrite String.eqb_refl in E1.
Qed.

Lemma dict_get_fold {V} (f : string -> V) (rubs : list string) (d : dict V) (c : string) :
  dict_get c (fold_left (fun l rub => dict_set rub (f rub) l) rubs d) =
  if existsb (String.eqb c) rubs then Some (f c) else dict_get c d.
Proof.
  revert d. induction rubs as [|r rubs IH]; intros d; cbn; [reflexivity|].
  rewrite IH, dict_get_set. rewrite (String.eqb_sym r c).
  destruct (String.eqb c r) eqn:E; cbn.
  - apply String.eqb_eq in E as ->. now destruct (existsb _ rubs).
  - reflexivity.
Qed.

Lemma linha_de_get (rubs : list string) (reg : registro) (c : string) :
  (forall r, In r rubs -> r <> s_MesAno /\ r <> s_BaseFGTS) ->
  In c ([s_MesAno] ++ rubs ++ [s_BaseFGTS]) ->
  dict_get c (linha_de rubs reg) = Some (valor_coluna reg c).
Proof.
  intros Hr Hc. unfold linha_de.
  rewrite (dict_get_fold (fun rub => CNum (get_or_zero rub (g_proventos reg)))).
  unfold valor_coluna.
  destruct (existsb (String.eqb c) rubs) eqn:E.
  - apply existsb_exists in E as (r & Hin & Er). apply String.eqb_eq in Er as <-.
    destruct (Hr c Hin) as [H1 H2].
    apply String.eqb_neq in H1, H2. now rewrite H1, H2.
  - assert (Hn : ~ In c rubs).
    { intros Hin. assert (existsb (String.eqb c) rubs = true) as E'
        by (apply existsb_exists; exists c; split; [exact Hin | apply String.eqb_refl]).
      congruence. }
    apply in_app_iff in Hc as [[<-|[]]|Hc]; [reflexivity|].
    apply in_app_iff in Hc as [Hc|[<-|[]]]; [contradiction|reflexivity].
Qed.

Lemma rubricas_de_colunas (ts : list string) (x : string) :
  In x (sorted_str (rubricas_de (primeiros [] (recibos ts)))) ->
  x <> s_MesAno /\ x <> s_BaseFGTS.
Proof.
  intros H. apply (Permutation_in _ (sorted_str_perm _)) in H.
  apply rubricas_de_in in H as (rc & Hrc & Hx).
  apply primeiros_in, recibos_in in Hrc as (t & Ht).
  apply rotulo_nao_coluna. exact (recibo_rotulos t rc x Ht Hx).
Qed.

Lemma processar_pdf_linhas (adobe : option (list elemento)) (pdf : list pagina)
    (ini fim : Z) (t : tabela) (avs : list aviso) :
  processar_pdf adobe pdf ini fim = Ok t avs ->
  let rs := primeiros [] (recibos (textos_lidos adobe pdf ini fim)) in
  rs <> [] ->
  avs = flat_map r_avisos rs /\
  colunas t = [s_MesAno] ++ sorted_str (rubricas_de rs) ++ [s_BaseFGTS] /\
  Permutation (linhas t)
    (map (fun rc => map (fun c => Some (valor_coluna (registro_de rc) c)) (colunas t)) rs).
Proof.
  intros H rs Hne. apply processar_pdf_Ok in H. fold rs in H.
  destruct rs as [|rc0 rs0] eqn:Ers; [contradiction|]. rewrite <- Ers in H |- *.
  apply montar_Ok in H as (Ha & Hc & ps & Hp & _ & _ & Ht).
  split; [exact Ha|]. split; [exact Hc|].
  rewrite Ht, <- (map_map fst (fun l => map (fun c => dict_get c l) (colunas t))).
  eapply perm_trans; [apply Permutation_map, Hp|].
  rewrite !map_map. apply Permutation_refl'. apply map_ext_in. intros rc Hrc.
  apply map_ext_in. intros c Hc'. f_equal.
  rewrite Hc in Hc'. apply linha_de_get; [|exact Hc'].
  intros r Hr. subst rs. apply (rubricas_de_colunas _ _ Hr).
Qed.

(** First occurrences *)

Lemma primeiros_fresco (v : list string) (rs : list recibo) (rc : recibo) :
  In rc (primeiros v rs) -> existsb (String.eqb (r_mes_ano rc)) v = false.
Proof.
  revert v. induction rs as [|r rs IH]; intros v; cbn; [intros []|].
  destruct (existsb (String.eqb (r_mes_ano r)) v) eqn:E; [apply IH|].
  intros [<-|H]; [exact E|]. apply IH in H. cbn in H.
  now apply orb_false_iff in H as [_ H].
Qed.

Lemma primeiros_nodup (v : list string) (rs : list recibo) :
  NoDup (map r_mes_ano (primeiros v rs)).
Proof.
  revert v. induction rs as [|r rs IH]; intros v; cbn; [constructor|].
  destruct (existsb _ v); [apply IH|]. cbn. constructor; [|apply IH].
  intros Hin. apply in_map_iff in Hin as (rc & Hk & Hrc).
  apply primeiros_fresco in Hrc. cbn in Hrc. rewrite Hk, String.eqb_refl in Hrc.
  discriminate Hrc.
Qed.

Lemma primeiros_primeiro (v : list string) (pre post : list recibo) (rc : recibo) :
  existsb (String.eqb (r_mes_ano rc)) v = false ->
  (forall r, In r pre -> r_mes_ano r <> r_mes_ano rc) ->
  In rc (primeiros v (pre ++ rc :: post)).
Proof.
  revert v. induction pre as [|r pre IH]; intros v Hv Hpre; cbn.
  - rewrite Hv. now left.
  - assert (Hpre' : forall x, In x pre -> r_mes_ano x <> r_mes_ano rc)
      by (intros x Hx; apply Hpre; now right).
    destruct (existsb (String.eqb (r_mes_ano r)) v); [now apply IH|].
    cbn [In]. right. apply IH; [|exact Hpre']. cbn. apply orb_false_iff. split; [|exact Hv].
    apply String.eqb_neq. intros E. apply (Hpre r (or_introl eq_refl)). now rewrite E.
Qed.

Lemma filter_perm {A} (f : A -> bool) (l l' : list A) :
  Permutation l l' -> Permutation (filter f l) (filter f l').
Proof.
  induction 1; cbn.
  - constructor.
  - destruct (f x); [now constructor | assumption].
  - destruct (f x), (f y); try constructor; reflexivity.
  - eapply perm_trans; eassumption.
Qed.

Lemma filter_unico {A} (key : A -> string) (l : list A) (x : A) :
  NoDup (map key l) -> In x l ->
  length (filter (fun y => String.eqb (key y) (key x)) l) = 1%nat.
Proof.
  induction l as [|y l IH]; intros Hn Hx; [destruct Hx|].
  inversion Hn as [|? ? Hy Hl]; subst. cbn.
  destruct Hx as [<-|Hx].
  - rewrite String.eqb_refl. cbn. f_equal.
    rewrite (filter_ext_in _ (fun _ => false)), filter_false; [reflexivity|].
    intros z Hz. apply String.eqb_neq. intros E. apply Hy. rewrite <- E.
    now apply in_map.
  - destruct (String.eqb (key y) (key x)) eqn:E; [|now apply IH].
    apply String.eqb_eq in E. exfalso. apply Hy. rewrite E. now apply in_map.
Qed.

Lemma periodo_linha_eqb (rc r : recibo) (cs : list string) :
  do_periodo (r_mes_ano rc)
    (map (fun c => Some (valor_coluna (registro_de r) c)) (s_MesAno :: cs)) =
  String.eqb (r_mes_ano r) (r_mes_ano rc).
Proof.
  unfold do_periodo, periodo_celulas, valor_coluna. cbn.
  reflexivity.
Qed.

(** Claim C8.  Let [rc] be the record of the first page, among the pages
    that are read, giving the period [r_mes_ano rc].  When [processar_pdf]
    returns a table, exactly one of its rows has that period, and the row
    of [rc] is among the rows: every later page with the same period is
    left out. *)
Theorem processar_pdf_C8 (adobe : option (list elemento)) (pdf : list pagina)
    (ini fim : Z) (t : tabela) (avs : list aviso)
    (pre post : list recibo) (rc : recibo) :
  processar_pdf adobe pdf ini fim = Ok t avs ->
  recibos (textos_lidos adobe pdf ini fim) = pre ++ rc :: post ->
  (forall r, In r pre -> r_mes_ano r <> r_mes_ano rc) ->
  length (filter (do_periodo (r_mes_ano rc)) (linhas t)) = 1%nat /\
  In (map (fun c => Some (valor_coluna (registro_de rc) c)) (colunas t)) (linhas t).
Proof.
  intros H Hr Hpre.
  assert (Hin : In rc (primeiros [] (recibos (textos_lidos adobe pdf ini fim)))).
  { rewrite Hr. now apply primeiros_primeiro. }
  assert (Hne : primeiros [] (recibos (textos_lidos adobe pdf ini fim)) <> [])
    by (intros E; rewrite E in Hin; destruct Hin).
  destruct (processar_pdf_linhas _ _ _ _ _ _ H Hne) as (_ & Hc & Hp).
  split.
  - rewrite (Permutation_length (filter_perm _ _ _ Hp)).
    rewrite filter_map_swap, length_map.
    rewrite (filter_ext _ (fun a => String.eqb (r_mes_ano a) (r_mes_ano rc))).
    + apply (filter_unico r_mes_ano); [apply primeiros_nodup | exact Hin].
    + intros a. rewrite Hc. cbn [app]. apply periodo_linha_eqb.
  - apply (Permutation_in _ (Permutation_sym Hp)).
    exact (in_map (fun r => map (fun c => Some (valor_coluna (registro_de r) c)) (colunas t)) _ _ Hin).
Qed.

Lemma dict_get_fora {V} (c : string) (d : dict V) :
  ~ In c (dict_keys d) -> dict_get c d = None.
Proof.
  induction d as [|[k v] d IH]; cbn; intros H; [reflexivity|].
  destruct (String.eqb k c) eqn:E.
  - apply String.eqb_eq in E. exfalso. apply H. now left.
  - apply IH. intros Hc. apply H. now right.
Qed.

(** Claim C9.  When [processar_pdf] returns a table built from at least one
    record, its columns are the period column, then the labels of the kept
    records without repetition and in increasing code-point order, then the
    tax-base column; every row is the row of a kept record with a value in
    every column, the value of a label column being the record's amount
    for that label, or 0 when the record has no such label. *)
Theorem processar_pdf_C9 (adobe : option (list elemento)) (pdf : list pagina)
    (ini fim : Z) (t : tabela) (avs : list aviso) :
  processar_pdf adobe pdf ini fim = Ok t avs ->
  let rs := primeiros [] (recibos (textos_lidos adobe pdf ini fim)) in
  rs <> [] ->
  exists L, colunas t = [s_MesAno] ++ L ++ [s_BaseFGTS] /\
    Sorted (fun a b => String.ltb a b = true) L /\ NoDup L /\
    (forall x, In x L <-> exists rc, In rc rs /\ In x (dict_keys (r_proventos rc))) /\
    forall row, In row (linhas t) ->
      exists rc, In rc rs /\
        row = map (fun c => Some (valor_coluna (registro_de rc) c)) (colunas t) /\
        forall c, In c L ->
          valor_coluna (registro_de rc) c = CNum (get_or_zero c (r_proventos rc)) /\
          (~ In c (dict_keys (r_proventos rc)) -> get_or_zero c (r_proventos rc) = Fin 0).
Proof.
  intros H rs Hne. destruct (processar_pdf_linhas _ _ _ _ _ _ H Hne) as (_ & Hc & Hp).
  fold rs in Hc, Hp.
  exists (sorted_str (rubricas_de rs)). split; [exact Hc|].
  split; [apply sorted_str_sorted, rubricas_de_nodup|].
  split; [exact (Permutation_NoDup (Permutation_sym (sorted_str_perm _)) (rubricas_de_nodup rs))|].
  split.
  - intros x. rewrite <- rubricas_de_in. split; intros Hx.
    + exact (Permutation_in _ (sorted_str_perm _) Hx).
    + exact (Permutation_in _ (Permutation_sym (sorted_str_perm _)) Hx).
  - intros row Hrow. apply (Permutation_in _ Hp), in_map_iff in Hrow as (rc & <- & Hrc).
    exists rc. split; [exact Hrc|]. split; [reflexivity|].
    intros c Hcl. destruct (rubricas_de_colunas _ c Hcl) as [H1 H2].
    unfold valor_coluna. apply String.eqb_neq in H1, H2. rewrite H1, H2.
    split; [reflexivity|]. intros Hk. unfold get_or_zero. cbn [g_proventos registro_de].
    now rewrite (dict_get_fora c _ Hk).
Qed.

(** Claim C10.  The warnings [processar_pdf] returns with a table are the
    warnings of the kept records, page after page: a record dropped as a
    repeated period contributes none. *)
Theorem processar_pdf_C10 (adobe : option (list elemento)) (pdf : list pagina)
    (ini fim : Z) (t : tabela) (avs : list aviso) :
  processar_pdf adobe pdf ini fim = Ok t avs ->
  avs = flat_map r_avisos (primeiros [] (recibos (textos_lidos adobe pdf ini fim))).
Proof.
  intros H. apply processar_pdf_Ok in H.
  destruct (primeiros [] _) as [|rc rs].
  - now injection H as _ <-.
  - now apply montar_Ok in H as (Ha & _).
Qed.

Lemma coletar_sem_registros (ts : list string) :
  registros (coletar ts estado0) = [] -> coletar ts estado0 = estado0.
Proof.
  rewrite coletar_estado0. cbn [registros].
  destruct (primeiros [] (recibos ts)); [reflexivity | discriminate].
Qed.

Lemma todas_In_None {A} (l : list (option A)) : In None l -> todas l = None.
Proof.
  induction l as [|[x|] r IH]; cbn; intros H; [destruct H| |reflexivity].
  destruct H as [H|H]; [discriminate H|]. now rewrite (IH H).
Qed.

(** The fallback loop raises as soon as its range holds a page without
    text. *)
Lemma fatia_pdf_falha (pdf : list pagina) (ini fim k : Z) :
  Z.max 1 ini <= k <= Z.min (Z.of_nat (length pdf)) fim ->
  texto_pagina (nth (Z.to_nat (k - 1)) pdf pagina_vazia) = None ->
  todas (fatia_pdf pdf ini fim) = None.
Proof.
  intros Hk Hp. apply todas_In_None. unfold fatia_pdf, faixa. rewrite map_map.
  rewrite <- Hp. apply in_map_iff. exists (Z.to_nat (k - Z.max 1 ini)). split.
  - f_equal. f_equal. f_equal. lia.
  - apply in_seq. lia.
Qed.

(** Claim C1.  Let [T] be the page texts of the remote extraction, empty
    when the call raised, and [ini'], [fim'] the requested range clamped to
    [1 .. length T].  If [T] is empty, the pdfplumber pages of the
    requested range are read; if [T] is not empty and its pages of the
    clamped range give no record, the pdfplumber pages of that clamped range
    are read instead, from an empty state; if they give a record, no
    fallback happens; when no record results and nothing raised,
    [processar_pdf] returns the empty table with the collected warnings.
    But the OCR of the fallback always raises: as soon as the fallback
    range holds a page without text, [processar_pdf] raises, whatever the
    other pages give. *)
Theorem executar_C1 (adobe : option (list elemento)) (pdf : list pagina) (ini fim : Z) :
  let T := match adobe with Some els => extract_pdf_adobe els | None => [] end in
  let ini' := Z.max 1 ini in
  let fim' := Z.min (Z.of_nat (length T)) fim in
  let ocr (i f : Z) :=
    match todas (fatia_pdf pdf i f) with
    | Some ts => Some (coletar ts estado0)
    | None => None
    end in
  (T = [] -> executar adobe pdf ini fim = ocr ini fim) /\
  (T <> [] -> registros (coletar (fatia T ini' fim') estado0) = [] ->
     executar adobe pdf ini fim = ocr ini' fim') /\
  (T <> [] -> registros (coletar (fatia T ini' fim') estado0) <> [] ->
     executar adobe pdf ini fim = Some (coletar (fatia T ini' fim') estado0)) /\
  (forall st, executar adobe pdf ini fim = Some st -> registros st = [] ->
     processar_pdf adobe pdf ini fim = Ok tabela_vazia (avisos_totais st)) /\
  (forall k, (T = [] \/ registros (coletar (fatia T ini' fim') estado0) = []) ->
     Z.max 1 ini <= k <= Z.min (Z.of_nat (length pdf))
                              (match T with [] => fim | _ :: _ => fim' end) ->
     texto_pagina (nth (Z.to_nat (k - 1)) pdf pagina_vazia) = None ->
     processar_pdf adobe pdf ini fim = Excecao).
Proof.
  cbv zeta. unfold processar_pdf, executar, fase_adobe.
  destruct (match adobe with Some els => extract_pdf_adobe els | None => [] end)
    as [|t0 ts0]; unfold fase_ocr.
  - split; [reflexivity|]. split; [intros H; contradiction|]. split; [intros H; contradiction|].
    split.
    + intros st H Hr. rewrite H, Hr. reflexivity.
    + intros k _ Hk Hp. cbn [registros estado0].
      rewrite (fatia_pdf_falha pdf ini fim k Hk Hp). reflexivity.
  - split; [intros H; discriminate H|]. split; [|split; [|split]].
    + intros _ Hr. rewrite Hr, coletar_sem_registros by exact Hr. reflexivity.
    + intros _ Hr. destruct (registros _); [contradiction | reflexivity].
    + intros st H Hr. rewrite H, Hr. reflexivity.
    + intros k [H|Hr] Hk Hp; [discriminate H|]. rewrite Hr.
      rewrite (fatia_pdf_falha pdf (Z.max 1 ini) _ k) by (try lia; exact Hp).
      reflexivity.
Qed.

Lemma executar_C1_witness :
  executar None ex_pdf 1 3 =
    (match todas (fatia_pdf ex_pdf 1 3) with Some ts => Some (coletar ts estado0) | None => None end) /\
  executar (Some [(1, "nada"%string)]) ex_pdf 1 3 =
    (match todas (fatia_pdf ex_pdf 1 1) with Some ts => Some (coletar ts estado0) | None => None end) /\
  processar_pdf None [pagina_imagem] 1 1 = Excecao.
Proof.
  split; [|split].
  - apply (executar_C1 None ex_pdf 1 3). reflexivity.
  - apply (executar_C1 (Some [(1, "nada"%string)]) ex_pdf 1 3);
      [discriminate | vm_compute; reflexivity].
  - destruct (executar_C1 None [pagina_imagem] 1 1) as (_ & _ & _ & _ & H5).
    apply (H5 1).
    + left. reflexivity.
    + cbn. lia.
    + reflexivity.
Defined.


Lemma processar_pdf_C7_witness :
  exists t avs, processar_pdf None ex_pdf 1 3 = Ok t avs /\
    exists d1 d2, data_celulas (nth 0 (linhas t) []) = Some d1 /\
                  data_celulas (nth 1 (linhas t) []) = Some d2 /\ d1 <= d2.
Proof.
  destruct (processar_pdf None ex_pdf 1 3) as [t avs|] eqn:E;
    [|vm_compute in E; discriminate E].
  exists t, avs. split; [reflexivity|].
  pose proof E as E'. vm_compute in E'. injection E' as Et _.
  apply (processar_pdf_C7 _ _ _ _ _ _ E [] _ _ []). rewrite <- Et. reflexivity.
Defined.

Lemma processar_pdf_C8_witness :
  exists t avs, processar_pdf None ex_pdf 1 3 = Ok t avs /\
    length (filter (do_periodo "Jan/2024") (linhas t)) = 1%nat.
Proof.
  destruct (processar_pdf None ex_pdf 1 3) as [t avs|] eqn:E;
    [|vm_compute in E; discriminate E].
  exists t, avs. split; [reflexivity|].
  destruct (recibos (textos_lidos None ex_pdf 1 3)) as [|r0 [|r1 rest]] eqn:Er;
    [vm_compute in Er; discriminate Er | vm_compute in Er; discriminate Er|].
  pose proof Er as Er'. vm_compute in Er'. injection Er' as E0 E1 E2. subst r0 r1 rest.
  apply (processar_pdf_C8 _ _ _ _ _ _ [_] _ _ E Er).
  intros r [<-|[]]. vm_compute. discriminate.
Defined.

Lemma processar_pdf_C9_witness :
  exists t avs, processar_pdf None ex_pdf 1 3 = Ok t avs /\
    exists L, colunas t = [s_MesAno] ++ L ++ [s_BaseFGTS] /\
              Sorted (fun a b => String.ltb a b = true) L.
Proof.
  destruct (processar_pdf None ex_pdf 1 3) as [t avs|] eqn:E;
    [|vm_compute in E; discriminate E].
  exists t, avs. split; [reflexivity|].
  destruct (processar_pdf_C9 _ _ _ _ _ _ E) as (L & H1 & H2 & _).
  - vm_compute. discriminate.
  - exists L. split; assumption.
Defined.

Lemma processar_pdf_C10_witness :
  exists t avs, processar_pdf None ex_pdf 1 3 = Ok t avs /\ length avs = 1%nat.
Proof.
  destruct (processar_pdf None ex_pdf 1 3) as [t avs|] eqn:E;
    [|vm_compute in E; discriminate E].
  exists t, avs. split; [reflexivity|].
  rewrite (processar_pdf_C10 _ _ _ _ _ _ E). vm_compute. reflexivity.
Defined.

(** ** Further properties *)

Lemma setdefault_keys (p : Z) (t : string) (d : list (Z * list string)) :
  map fst (setdefault_append p t d) =
  if existsb (Z.eqb p) (map fst d) then map fst d else map fst d ++ [p].
Proof.
  induction d as [|[p' ts] d IH]; cbn; [reflexivity|].
  rewrite (Z.eqb_sym p p'). destruct (Z.eqb p' p); cbn; [reflexivity|].
  rewrite IH. destruct (existsb _ _); reflexivity.
Qed.

Lemma setdefault_lookup (p q : Z) (t : string) (d : list (Z * list string)) :
  lookup_Z q (setdefault_append p t d) =
  if Z.eqb q p
  then Some (match lookup_Z p d with Some ts => ts | None => [] end ++ [t])
  else lookup_Z q d.
Proof.
  induction d as [|[p' ts] d IH]; cbn.
  - rewrite (Z.eqb_sym p q). destruct (Z.eqb q p); reflexivity.
  - destruct (Z.eqb p' p) eqn:E1; cbn.
    + apply Z.eqb_eq in E1 as ->. rewrite (Z.eqb_sym p q).
      destruct (Z.eqb q p); reflexivity.
    + rewrite IH. destruct (Z.eqb p' q) eqn:E2, (Z.eqb q p) eqn:E3; try reflexivity.
      apply Z.eqb_eq in E2, E3. subst. now rewrite Z.eqb_refl in E1.
Qed.

Lemma existsb_distintas_acc (ps acc : list Z) (x : Z) :
  existsb (Z.eqb x)
    (fold_left (fun acc p => if existsb (Z.eqb p) acc then acc else acc ++ [p]) ps acc) =
  existsb (Z.eqb x) (acc ++ ps).
Proof.
  revert acc. induction ps as [|p ps IH]; intros acc; cbn.
  - now rewrite app_nil_r.
  - rewrite IH. rewrite existsb_app. cbn.
    destruct (existsb (Z.eqb p) acc) eqn:E.
    + rewrite existsb_app. destruct (Z.eqb x p) eqn:Ex.
      * apply Z.eqb_eq in Ex as ->. rewrite E. now rewrite orb_true_l.
      * cbn [existsb]. now rewrite Ex.
    + rewrite !existsb_app. cbn. rewrite orb_false_r. symmetry. apply orb_assoc.
Qed.

Lemma existsb_distintas (ps : list Z) (x : Z) :
  existsb (Z.eqb x) (paginas_distintas ps) = existsb (Z.eqb x) ps.
Proof. apply existsb_distintas_acc. Qed.

Lemma textos_de_snoc (q : Z) (els : list elemento) (e : elemento) :
  textos_de q (els ++ [e]) = textos_de q els ++ (if Z.eqb (fst e) q then [snd e] else []).
Proof.
  unfold textos_de. rewrite filter_app, map_app. cbn.
  destruct (Z.eqb (fst e) q); reflexivity.
Qed.

Lemma textos_de_fora (q : Z) (els : list elemento) :
  existsb (Z.eqb q) (map fst els) = false -> textos_de q els = [].
Proof.
  induction els as [|[p t] els IH]; cbn; [reflexivity|].
  intros H. apply orb_false_iff in H as [H1 H2]. unfold textos_de. cbn.
  rewrite Z.eqb_sym, H1. exact (IH H2).
Qed.

Lemma agrupar_snoc (els : list elemento) (e : elemento) :
  agrupar_paginas (els ++ [e]) = setdefault_append (fst e) (snd e) (agrupar_paginas els).
Proof. unfold agrupar_paginas. now rewrite fold_left_app. Qed.

Lemma agrupar_inv (els : list elemento) :
  map fst (agrupar_paginas els) = paginas_distintas (map fst els) /\
  forall q, lookup_Z q (agrupar_paginas els) =
    if existsb (Z.eqb q) (map fst els) then Some (textos_de q els) else None.
Proof.
  induction els as [|e els IH] using rev_ind; [split; [reflexivity | intros q; reflexivity]|].
  destruct IH as [Hk Hl]. rewrite agrupar_snoc. destruct e as [p t]. cbn [fst snd]. split.
  - rewrite setdefault_keys, Hk, existsb_distintas. unfold paginas_distintas.
    rewrite map_app, fold_left_app. cbn [map fold_left fst].
    rewrite existsb_distintas_acc, app_nil_l. reflexivity.
  - intros q. rewrite setdefault_lookup, map_app, existsb_app, textos_de_snoc. cbn [map existsb fst snd].
    destruct (Z.eqb q p) eqn:E.
    + apply Z.eqb_eq in E as ->. rewrite Hl, Z.eqb_refl, orb_true_r.
      destruct (existsb (Z.eqb p) (map fst els)) eqn:Ep; [reflexivity|].
      now rewrite textos_de_fora.
    + rewrite Hl, orb_false_r, Z.eqb_sym, E, app_nil_r. reflexivity.
Qed.

Lemma distintas_nodup (ps : list Z) : NoDup (paginas_distintas ps).
Proof.
  unfold paginas_distintas.
  assert (G : forall acc, NoDup acc -> NoDup (fold_left
     (fun acc p => if existsb (Z.eqb p) acc then acc else acc ++ [p]) ps acc)).
  { induction ps as [|p ps IH]; intros acc H; cbn; [exact H|]. apply IH.
    destruct (existsb (Z.eqb p) acc) eqn:E; [exact H|].
    apply NoDup_app; [exact H | repeat constructor; intros [] |].
    intros y Hy [->|[]].
    assert (existsb (Z.eqb y) acc = true) as E'
      by (apply existsb_exists; exists y; split; [exact Hy | apply Z.eqb_refl]).
    congruence. }
  apply G. constructor.
Qed.

Lemma insere_Z_perm (x : Z) (l : list Z) : Permutation (insere_Z x l) (x :: l).
Proof.
  induction l as [|y r IH]; cbn; [reflexivity|].
  destruct (x <=? y); [reflexivity|]. rewrite IH. apply perm_swap.
Qed.

Lemma sorted_Z_perm (l : list Z) : Permutation (sorted_Z l) l.
Proof.
  induction l as [|x r IH]; [reflexivity|]. unfold sorted_Z. cbn [fold_right].
  rewrite insere_Z_perm. now apply perm_skip.
Qed.

Lemma insere_Z_sorted (x : Z) (l : list Z) :
  ~ In x l -> Sorted Z.lt l -> Sorted Z.lt (insere_Z x l).
Proof.
  induction l as [|y r IH]; intros Hn H; cbn; [repeat constructor|].
  destruct (x <=? y) eqn:E.
  - apply Z.leb_le in E. constructor; [exact H|]. constructor.
    assert (x <> y) by (intros ->; apply Hn; now left). lia.
  - apply Z.leb_gt in E. apply Sorted_inv in H as [H1 H2]. constructor.
    + apply IH; [intros Hx; apply Hn; now right | exact H1].
    + destruct r as [|z r]; cbn; [now constructor|].
      apply HdRel_inv in H2. destruct (x <=? z); constructor; lia.
Qed.

Lemma sorted_Z_sorted (l : list Z) : NoDup l -> Sorted Z.lt (sorted_Z l).
Proof.
  induction l as [|x r IH]; intros H; [constructor|]. unfold sorted_Z. cbn [fold_right].
  inversion H as [|? ? Hx Hr]; subst. apply insere_Z_sorted; [|now apply IH].
  intros Hin. apply Hx. exact (Permutation_in _ (sorted_Z_perm r) Hin).
Qed.

(** [extract_pdf_adobe] lists, for each page number carried by some
    element, in strictly increasing page order, the texts of that page's
    elements in element order joined with newlines. *)
Theorem extract_pdf_adobe_paginas (els : list elemento) :
  exists ps, extract_pdf_adobe els = map (fun p => join_nl (textos_de p els)) ps /\
    Sorted Z.lt ps /\ (forall p, In p ps <-> exists t, In (p, t) els).
Proof.
  destruct (agrupar_inv els) as [Hk Hl].
  exists (sorted_Z (paginas_distintas (map fst els))). split; [|split].
  - unfold extract_pdf_adobe. rewrite Hk. apply map_ext_in. intros p Hp.
    rewrite Hl. apply (Permutation_in _ (sorted_Z_perm _)) in Hp.
    assert (E : existsb (Z.eqb p) (map fst els) = true).
    { rewrite <- existsb_distintas. apply existsb_exists. exists p.
      split; [exact Hp | apply Z.eqb_refl]. }
    now rewrite E.
  - apply sorted_Z_sorted, distintas_nodup.
  - intros p. split.
    + intros Hp. apply (Permutation_in _ (sorted_Z_perm _)) in Hp.
      assert (E : existsb (Z.eqb p) (paginas_distintas (map fst els)) = true)
        by (apply existsb_exists; exists p; split; [exact Hp | apply Z.eqb_refl]).
      rewrite existsb_distintas in E. apply existsb_exists in E as (p' & Hp' & Ep).
      apply Z.eqb_eq in Ep as <-. apply in_map_iff in Hp' as ([p' t] & <- & Hin).
      now exists t.
    + intros (t & Hin). apply (Permutation_in _ (Permutation_sym (sorted_Z_perm _))).
      assert (E : existsb (Z.eqb p) (map fst els) = true).
      { apply existsb_exists. exists p. split; [|apply Z.eqb_refl].
        exact (in_map fst _ (p, t) Hin). }
      rewrite <- existsb_distintas in E. apply existsb_exists in E as (p' & Hp' & Ep).
      apply Z.eqb_eq in Ep as <-. exact Hp'.
Qed.

Lemma splitlines_sem_quebra (s r cur : string) :
  sem_quebra s = true -> splitlines_aux (s +++ r) cur = splitlines_aux r (cur +++ s).
Proof.
  revert cur. induction s as [|c s IH]; intros cur H; cbn.
  - now rewrite append_nil_s.
  - unfold sem_quebra in H. cbn in H. apply andb_prop in H as [Hc Hs].
    apply negb_true_iff in Hc.
    assert (E13 : (cp c =? 13)%N = false).
    { destruct (N.eqb_spec (cp c) 13) as [E|]; [|reflexivity].
      unfold is_line_break in Hc. rewrite E in Hc. discriminate Hc. }
    rewrite E13, Hc. rewrite IH by exact Hs. now rewrite append_assoc_s.
Qed.

(** [splitlines] undoes the ["\n".join] of [extract_pdf_adobe]: lines
    holding no line boundary, the last one not empty, come back as they
    were. *)
Theorem splitlines_join (ls : list string) :
  Forall (fun l => sem_quebra l = true) ls -> last ls EmptyString <> EmptyString ->
  splitlines (join_nl ls) = ls.
Proof.
  unfold splitlines, join_nl. induction ls as [|l ls IH]; intros Hf Hl; [reflexivity|].
  inversion Hf as [|? ? Hq Hr]; subst.
  destruct ls as [|l' ls].
  - cbn [String.concat]. rewrite <- (append_nil_s l) at 1.
    rewrite splitlines_sem_quebra by exact Hq. cbn.
    destruct (String.eqb_spec l EmptyString) as [E|]; [contradiction|reflexivity].
  - change (String.concat (ch 10) (l :: l' :: ls))
      with (l +++ ch 10 +++ String.concat (ch 10) (l' :: ls)).
    rewrite splitlines_sem_quebra by exact Hq. cbn. f_equal. apply IH; [exact Hr | exact Hl].
Qed.

Lemma skipn_nth_cons {A} (l : list A) (d : A) (k : nat) :
  (k < length l)%nat -> skipn k l = nth k l d :: skipn (S k) l.
Proof.
  revert k. induction l as [|x l IH]; intros k H; cbn in H; [lia|].
  destruct k as [|k]; [reflexivity|]. cbn [skipn nth]. apply IH. lia.
Qed.

Lemma seq_nth_firstn {A} (l : list A) (d : A) (n k : nat) :
  (k + n <= length l)%nat ->
  map (fun i => nth (k + i) l d) (seq 0 n) = firstn n (skipn k l).
Proof.
  revert k. induction n as [|n IH]; intros k H; [reflexivity|].
  rewrite (skipn_nth_cons l d k) by lia. cbn [seq map firstn].
  rewrite Nat.add_0_r. f_equal. rewrite <- seq_shift, map_map.
  rewrite <- (IH (S k)) by lia. apply map_ext. intros i. f_equal. lia.
Qed.

Lemma faixa_nth {A} (l : list A) (d : A) (a b : Z) :
  0 <= a -> b <= Z.of_nat (length l) ->
  map (fun idx => nth (Z.to_nat idx) l d) (faixa a b) =
  firstn (Z.to_nat (b - a)) (skipn (Z.to_nat a) l).
Proof.
  intros Ha Hb. unfold faixa. rewrite map_map.
  destruct (Z.le_gt_cases (b - a) 0) as [Hn|Hn].
  - replace (Z.to_nat (b - a)) with 0%nat by lia. reflexivity.
  - rewrite <- (seq_nth_firstn l d) by lia. apply map_ext. intros i. f_equal. lia.
Qed.

(** Both page loops read a contiguous block of pages: [range(ini-1, fim)]
    over the clamped bounds never indexes past the list, and yields the
    pages [max 1 ini .. min n fim], in page order. *)
Theorem fatia_contigua (T : list string) (pdf : list pagina) (ini fim : Z) :
  fatia T (Z.max 1 ini) (Z.min (Z.of_nat (length T)) fim) =
    firstn (Z.to_nat (Z.min (Z.of_nat (length T)) fim - Z.max 1 ini + 1))
      (skipn (Z.to_nat (Z.max 1 ini - 1)) T) /\
  fatia_pdf pdf ini fim =
    map texto_pagina
      (firstn (Z.to_nat (Z.min (Z.of_nat (length pdf)) fim - Z.max 1 ini + 1))
        (skipn (Z.to_nat (Z.max 1 ini - 1)) pdf)).
Proof.
  split.
  - unfold fatia. rewrite faixa_nth by lia. f_equal. f_equal. lia.
  - unfold fatia_pdf. rewrite <- (map_map (fun idx => nth (Z.to_nat idx) pdf pagina_vazia)).
    rewrite faixa_nth by lia. f_equal. f_equal. f_equal. lia.
Qed.




Lemma todas_None {A} (l : list (option A)) : todas l = None -> In None l.
Proof.
  induction l as [|[x|] r IH]; cbn; intros H; [discriminate H| |now left].
  destruct (todas r); [discriminate H|]. right. now apply IH.
Qed.

Lemma dict_get_keys {V} (c : string) (d : dict V) (v : V) :
  dict_get c d = Some v -> In c (dict_keys d).
Proof.
  induction d as [|[k v'] d IH]; cbn; intros H; [discriminate H|].
  destruct (String.eqb_spec k c) as [->|_]; [now left | right; now apply IH].
Qed.

Lemma colunas_df_in (ls : list (dict celula)) (l : dict celula) (c : string) :
  In l ls -> In c (dict_keys l) -> In c (colunas_df ls).
Proof.
  unfold colunas_df. generalize (@nil string) as acc.
  assert (M : forall ls acc, In c acc ->
            In c (fold_left (fun acc (l : dict celula) => set_update acc (dict_keys l)) ls acc)).
  { clear. induction ls as [|l ls IH]; intros acc H; cbn; [exact H|].
    apply IH. apply set_update_in. now left. }
  induction ls as [|l' ls IH]; intros acc Hl Hk; [destruct Hl|]; destruct Hl as [<-|Hl]; cbn.
  - apply M. apply set_update_in. now right.
  - now apply IH.
Qed.

(** When no page raised, [processar_pdf] raises exactly when one of the
    kept records has a period [pd.to_datetime(..., format="%b/%Y")] cannot
    read. *)
Lemma processar_pdf_excecao_data (adobe : option (list elemento)) (pdf : list pagina)
    (ini fim : Z) :
  executar adobe pdf ini fim <> None ->
  (processar_pdf adobe pdf ini fim = Excecao <->
   exists rc, In rc (primeiros [] (recibos (textos_lidos adobe pdf ini fim))) /\
     data_mes_ano (r_mes_ano rc) = None).
Proof.
  intros Hx. rewrite processar_pdf_casos.
  destruct (executar adobe pdf ini fim) as [st|]; [clear Hx | contradiction].
  remember (primeiros [] (recibos (textos_lidos adobe pdf ini fim))) as rs eqn:Ers.
  destruct rs as [|rc0 rs0]; [split; [discriminate | intros (rc & [] & _)]|].
  assert (Hc : forall r, In r (sorted_str (rubricas_de (rc0 :: rs0))) ->
                 r <> s_MesAno /\ r <> s_BaseFGTS)
    by (intros r Hr; rewrite Ers in Hr; exact (rubricas_de_colunas _ r Hr)).
  clear Ers. set (rs := rc0 :: rs0) in *.
  change (fold_left _ rs []) with (rubricas_de rs).
  unfold montar. set (rubs := sorted_str (rubricas_de rs)) in *.
  assert (Hd : map data_linha (map (linha_de rubs) (map registro_de rs)) =
               map (fun rc => data_mes_ano (r_mes_ano rc)) rs).
  { rewrite !map_map. apply map_ext. intros rc. unfold data_linha.
    rewrite linha_de_get; [|exact Hc | now left].
    unfold valor_coluna. now rewrite String.eqb_refl. }
  rewrite Hd. destruct (todas _) as [ds|] eqn:Et.
  - assert (Hf : forall c, In c ([s_MesAno] ++ rubs ++ [s_BaseFGTS]) ->
              existsb (String.eqb c) (colunas_df (map (linha_de rubs) (map registro_de rs))) = true).
    { intros c Hcs. apply existsb_exists. exists c. split; [|apply String.eqb_refl].
      apply (colunas_df_in _ (linha_de rubs (registro_de rc0))); [now left|].
      apply (dict_get_keys _ _ _ (linha_de_get rubs (registro_de rc0) c Hc Hcs)). }
    rewrite (proj2 (forallb_forall _ _) Hf). split; [discriminate|].
    intros (rc & Hrc & Hn). apply todas_Some in Et.
    assert (Hin : In None (map Some ds)).
    { rewrite <- Et, <- Hn. exact (in_map (fun rc => data_mes_ano (r_mes_ano rc)) _ _ Hrc). }
    apply in_map_iff in Hin as (x & Hx & _). discriminate Hx.
  - split; [intros _|reflexivity]. apply todas_None, in_map_iff in Et as (rc & Hn & Hrc).
    now exists rc.
Qed.

(** A period key built from the Portuguese months Fev, Abr, Mai, Ago,
    Set, Out or Dez is never read by [%b]; one kept record with such a
    period makes [processar_pdf] raise. *)
Theorem processar_pdf_mes_pt (m y : string) (adobe : option (list elemento))
    (pdf : list pagina) (ini fim : Z) :
  In m meses_so_pt ->
  data_mes_ano (m +++ "/" +++ y) = None /\
  ((exists rc, In rc (primeiros [] (recibos (textos_lidos adobe pdf ini fim))) /\
     r_mes_ano rc = m +++ "/" +++ y) ->
   processar_pdf adobe pdf ini fim = Excecao).
Proof.
  intros Hm. assert (Hd : data_mes_ano (m +++ "/" +++ y) = None).
  { unfold data_mes_ano. destruct (_ =? 8)%nat; [|reflexivity].
    cbn in Hm. repeat destruct Hm as [<-|Hm]; [..|destruct Hm]; reflexivity. }
  split; [exact Hd|]. intros (rc & Hrc & He).
  destruct (executar adobe pdf ini fim) as [st|] eqn:Ex.
  - apply processar_pdf_excecao_data; [rewrite Ex; discriminate|].
    exists rc. split; [exact Hrc|]. now rewrite He.
  - unfold processar_pdf. now rewrite Ex.
Qed.

Lemma processar_pdf_mes_pt_witness :
  data_mes_ano ("Mai" +++ "/" +++ "2024") = None /\
  processar_pdf None [pagina_texto ex_recibo] 1 1 = Excecao.
Proof.
  destruct (processar_pdf_mes_pt "Mai" "2024" None [pagina_texto ex_recibo] 1 1) as [H1 H2];
    [cbn; tauto|].
  split; [exact H1|]. apply H2.
  destruct (primeiros [] (recibos (textos_lidos None [pagina_texto ex_recibo] 1 1)))
    as [|rc rs] eqn:E; [vm_compute in E; discriminate E|].
  exists rc. split; [now left|].
  pose proof E as E'. vm_compute in E'. injection E' as <- _. reflexivity.
Defined.

Lemma dict_set_keys {V} (k : string) (v : V) (d : dict V) :
  dict_keys (dict_set k v d) =
  if existsb (String.eqb k) (dict_keys d) then dict_keys d else dict_keys d ++ [k].
Proof.
  unfold dict_keys. induction d as [|[k' v'] d IH]; cbn; [reflexivity|].
  rewrite (String.eqb_sym k k'). destruct (String.eqb_spec k' k) as [->|_]; cbn; [reflexivity|].
  rewrite IH. destruct (existsb _ _); reflexivity.
Qed.

Lemma proventos_de_keys (es : list (string * string)) (d : dict pyfloat) :
  NoDup (dict_keys d) ->
  let d' := fold_left (fun d e => dict_set (fst e) (fst (normalizar_valor (snd e))) d) es d in
  NoDup (dict_keys d') /\ (forall x, In x (dict_keys d) \/ In x (map fst es) -> In x (dict_keys d')).
Proof.
  revert d. induction es as [|e es IH]; intros d Hn d'; cbn in d'.
  - split; [exact Hn|]. intros x [H|[]]; exact H.
  - destruct (IH (dict_set (fst e) (fst (normalizar_valor (snd e))) d)) as [H1 H2].
    + rewrite dict_set_keys. destruct (existsb _ _) eqn:E; [exact Hn|].
      apply NoDup_app; [exact Hn | repeat constructor; intros []|].
      intros y Hy [Ey|[]]. subst y.
      assert (existsb (String.eqb (fst e)) (dict_keys d) = true) as E'
        by (apply existsb_exists; exists (fst e); split; [exact Hy | apply String.eqb_refl]).
      congruence.
    + split; [exact H1|]. intros x Hx. apply H2. cbn [map] in Hx.
      rewrite dict_set_keys. destruct Hx as [Hx|[<-|Hx]]; [left | left | now right].
      * destruct (existsb _ _); [exact Hx | apply in_app_iff; now left].
      * destruct (existsb (String.eqb (fst e)) (dict_keys d)) eqn:E; [|apply in_app_iff; right; now left].
        apply existsb_exists in E as (y & Hy & Ey). now apply String.eqb_eq in Ey as ->.
Qed.

(** A parsed record's labels are distinct and hold no lower-case ASCII
    letter; each of its warnings names the record's own period, and a
    warning about an unread amount names one of the record's labels. *)
Theorem extrair_recibo_texto_invariantes (texto : string) (rc : recibo) :
  extrair_recibo_texto texto = Some rc ->
  NoDup (dict_keys (r_proventos rc)) /\
  (forall x, In x (dict_keys (r_proventos rc)) -> sem_minuscula x = true) /\
  (forall a, In a (r_avisos rc) -> periodo_aviso a = r_mes_ano rc) /\
  (forall m d v, In (ValorNaoLido m d v) (r_avisos rc) -> In d (dict_keys (r_proventos rc))).
Proof.
  intros H. pose proof (extrair_recibo_texto_partes texto rc H) as [Hp Ha].
  set (es := entradas (linhas_tabela (splitlines texto))) in *.
  destruct (proventos_de_keys es [] (NoDup_nil _)) as [Hn Hk].
  fold (proventos_de es) in Hn, Hk. rewrite <- Hp in Hn, Hk.
  assert (Hav : r_avisos rc = avisos_de (r_mes_ano rc) es ++
                 match achar_fgts (rev (splitlines texto)) with
                 | Some g => if snd (normalizar_valor g) then []
                             else [FgtsNaoReconhecida (r_mes_ano rc) g]
                 | None => [FgtsNaoEncontrada (r_mes_ano rc)]
                 end).
  { destruct Ha as [(g & -> & _ & ->)|(-> & _ & ->)]; reflexivity. }
  assert (Hvs : forall a, In a (avisos_de (r_mes_ano rc) es) ->
            exists e, In e es /\ a = ValorNaoLido (r_mes_ano rc) (fst e) (snd e)).
  { intros a Ha'. unfold avisos_de in Ha'. apply in_flat_map in Ha' as (e & He & Hin).
    destruct (snd (normalizar_valor (snd e))); [destruct Hin|].
    destruct Hin as [<-|[]]. now exists e. }
  split; [exact Hn|]. split; [intros x; exact (recibo_rotulos texto rc x H)|]. split.
  - intros a Hin. rewrite Hav in Hin. apply in_app_iff in Hin as [Hin|Hin].
    + destruct (Hvs a Hin) as (e & _ & ->). reflexivity.
    + destruct (achar_fgts _) as [g|]; [destruct (snd _)|];
        [destruct Hin | destruct Hin as [<-|[]]; reflexivity ..].
  - intros m d v Hin. rewrite Hav in Hin. apply in_app_iff in Hin as [Hin|Hin].
    + destruct (Hvs _ Hin) as (e & He & Ee). injection Ee as _ -> _.
      apply Hk. right. exact (in_map fst _ _ He).
    + destruct (achar_fgts _) as [g|]; [destruct (snd _)|];
        [destruct Hin | destruct Hin as [Hin|[]]; discriminate Hin ..].
Qed.

Lemma extrair_recibo_texto_invariantes_witness :
  exists rc, extrair_recibo_texto ex_recibo = Some rc /\
    NoDup (dict_keys (r_proventos rc)) /\
    In (ValorNaoLido "Mai/2024" "BONUS" "abc") (r_avisos rc) /\
    In "BONUS"%string (dict_keys (r_proventos rc)).
Proof.
  destruct (extrair_recibo_texto ex_recibo) as [rc|] eqn:E; [|vm_compute in E; discriminate E].
  exists rc. split; [reflexivity|].
  destruct (extrair_recibo_texto_invariantes ex_recibo rc E) as (H1 & _ & _ & H4).
  assert (Ha : In (ValorNaoLido "Mai/2024" "BONUS" "abc") (r_avisos rc)).
  { pose proof E as E'. vm_compute in E'. injection E' as <-. cbn. tauto. }
  split; [exact H1|]. split; [exact Ha|]. exact (H4 _ _ _ Ha).
Defined.

Lemma splitlines_join_witness :
  splitlines (join_nl ["Salario   3.000,00"; ""; "TOTAL"]%string) =
  ["Salario   3.000,00"; ""; "TOTAL"]%string.
Proof.
  apply splitlines_join; [repeat constructor | discriminate].
Defined.

Lemma montar_nao_vazia (regs : list registro) (rubs : list string) (avs0 : list aviso)
    (t : tabela) (avs : list aviso) :
  montar regs rubs avs0 = Ok t avs -> regs <> [] -> df_empty t = false /\ avs = avs0.
Proof.
  intros H Hr. apply montar_Ok in H as (Ha & Hc & ps & Hp & _ & _ & Ht).
  split; [|exact Ha]. unfold df_empty. rewrite Hc, Ht. cbn [app].
  destruct ps as [|p ps]; [|reflexivity].
  apply Permutation_nil in Hp. destruct regs; [contradiction | discriminate Hp].
Qed.

(** The page shows the "no payslip found" error exactly when both page
    loops ran to their end and kept no record: a table built from a kept
    record is never empty, and a page that raised shows the exception. *)
Theorem interface_erro (adobe : option (list elemento)) (pdf : list pagina) (ini fim : Z) :
  interface (processar_pdf adobe pdf ini fim) = TelaErro <->
  exists st, executar adobe pdf ini fim = Some st /\ registros st = [].
Proof.
  unfold processar_pdf.
  destruct (executar adobe pdf ini fim) as [st|];
    [|split; [intros H; discriminate H | intros (st & H & _); discriminate H]].
  destruct (registros st) as [|r rs] eqn:Er.
  - split; [intros _; now exists st | reflexivity].
  - split; [|intros (st' & E & Hr); injection E as <-; rewrite Er in Hr; discriminate Hr].
    destruct (montar _ _ _) as [t avs|] eqn:E; [|intros H; discriminate H].
    destruct (montar_nao_vazia _ _ _ _ _ E) as [He _]; [discriminate|].
    cbn. rewrite He. intros H; discriminate H.
Qed.

(** When the table is shown, the review warning is shown exactly when a
    kept record has warnings, and lists all of them, one "- " item each,
    in page order. *)
Theorem interface_revisar (adobe : option (list elemento)) (pdf : list pagina) (ini fim : Z)
    (t : tabela) (rev : option (list N)) :
  interface (processar_pdf adobe pdf ini fim) = TelaTabela t rev ->
  let avs := flat_map r_avisos (primeiros [] (recibos (textos_lidos adobe pdf ini fim))) in
  processar_pdf adobe pdf ini fim = Ok t avs /\
  rev = match avs with [] => None | _ :: _ => Some (texto_revisar avs) end.
Proof.
  intros H avs. rewrite processar_pdf_casos in H |- *. subst avs.
  destruct (executar _ _ _ _); [|discriminate H].
  destruct (primeiros [] _) as [|rc rs]; [discriminate H|].
  destruct (montar _ _ _) as [t' avs|] eqn:E; [|discriminate H].
  destruct (montar_nao_vazia _ _ _ _ _ E) as [He ->]; [discriminate|].
  cbn in H. rewrite He in H. injection H as <- <-. auto.
Qed.

Lemma interface_revisar_witness :
  exists t rev, interface (processar_pdf None [pagina_texto ex_jan_a] 1 1) = TelaTabela t rev /\
    processar_pdf None [pagina_texto ex_jan_a] 1 1 =
      Ok t (flat_map r_avisos (primeiros [] (recibos (textos_lidos None [pagina_texto ex_jan_a] 1 1)))) /\
    rev = Some (texto_revisar (flat_map r_avisos
            (primeiros [] (recibos (textos_lidos None [pagina_texto ex_jan_a] 1 1))))).
Proof.
  destruct (interface (processar_pdf None [pagina_texto ex_jan_a] 1 1)) as [|t rev|] eqn:E;
    [vm_compute in E; discriminate E| |vm_compute in E; discriminate E].
  exists t, rev. split; [reflexivity|].
  destruct (interface_revisar None [pagina_texto ex_jan_a] 1 1 t rev E) as [H1 H2].
  split; [exact H1|]. rewrite H2. vm_compute. reflexivity.
Defined.

(** ** Token cache *)

Section TokenProvas.

Variable servidor : nat -> resposta.
Variable relogio : nat -> Q.


Lemma Qle_bool_false (a b : Q) : Qle_bool a b = false <-> (b < a)%Q.
Proof.
  split; intros H.
  - apply Qnot_le_lt. intros H'. apply Qle_bool_iff in H'. congruence.
  - destruct (Qle_bool a b) eqn:E; [|reflexivity]. apply Qle_bool_iff in E. exfalso. exact (Qlt_not_le b a H E).
Qed.

Theorem get_access_token_fresco (w : mundo) (tok : string) (exp : Q) :
  cache w = Some (tok, exp) -> (relogio (leituras w) <= exp)%Q ->
  get_access_token servidor relogio w = (Some tok, {| cache := Some (tok, exp); pedidos := pedidos w;
                        leituras := S (leituras w) |}).
Proof.
  intros Hc Hle. unfold get_access_token, cached_token. rewrite Hc. cbn.
  apply Qle_bool_iff in Hle. now rewrite Hle, Hc.
Qed.

Theorem get_access_token_vencido (w : mundo) (tok : string) (exp : Q) (tok' : string) (v : Q) :
  cache w = Some (tok, exp) -> (exp < relogio (leituras w))%Q ->
  servidor (pedidos w) = Token tok' v ->
  get_access_token servidor relogio w = (Some tok', {| cache := Some (tok', (relogio (S (leituras w)) + v - 60)%Q);
                         pedidos := S (pedidos w); leituras := S (S (leituras w)) |}).
Proof.
  intros Hc Hlt Hs. unfold get_access_token, cached_token at 1. rewrite Hc. cbn.
  apply Qle_bool_false in Hlt. rewrite Hlt. unfold cached_token. cbn. now rewrite Hs.
Qed.

Lemma cached_token_hit (w : mundo) (e : string * Q) :
  cache w = Some e -> cached_token servidor relogio w = (Some e, w).
Proof. intros Hc. unfold cached_token. now rewrite Hc. Qed.

Lemma cached_token_falha (w w' : mundo) :
  cached_token servidor relogio w = (None, w') ->
  cache w' = None /\ pedidos w' = S (pedidos w).
Proof.
  unfold cached_token. destruct (cache w) as [e|]; [intros H; discriminate H|].
  destruct (servidor (pedidos w)); cbn; intros H; [| |discriminate H];
    injection H as <-; auto.
Qed.

Lemma cached_token_sucesso (w w' : mundo) (e : string * Q) :
  cached_token servidor relogio w = (Some e, w') ->
  cache w' = Some e /\ (pedidos w <= pedidos w')%nat.
Proof.
  unfold cached_token. destruct (cache w) as [e'|] eqn:Hc.
  - intros H. injection H as <- <-. auto.
  - destruct (servidor (pedidos w)); cbn; intros H; try discriminate H.
    injection H as <- <-. cbn. auto.
Qed.

Theorem get_access_token_falha (w : mundo) :
  fst (get_access_token servidor relogio w) = None ->
  cache (snd (get_access_token servidor relogio w)) = None /\
  (S (pedidos w) <= pedidos (snd (get_access_token servidor relogio w)))%nat.
Proof.
  unfold get_access_token.
  destruct (cached_token servidor relogio w) as [[[tok exp]|] w1] eqn:E1.
  - cbn [ler_relogio]. destruct (Qle_bool _ exp); [intros H; discriminate H|].
    destruct (cached_token servidor relogio (com_cache _ None)) as [[[tok' exp']|] w3] eqn:E3;
      cbn; [intros H; discriminate H|]. intros _.
    apply cached_token_falha in E3 as [H1 H2]. apply cached_token_sucesso in E1 as [_ H3].
    cbn in H2. split; [exact H1 | lia].
  - cbn. intros _. apply cached_token_falha in E1 as [H1 H2]. split; [exact H1 | lia].
Qed.

End TokenProvas.


Lemma get_access_token_fresco_witness :
  get_access_token (fun _ => Falha) relogio_seg
    {| cache := Some ("t0"%string, 100%Q); pedidos := 0; leituras := 5 |} =
  (Some "t0"%string, {| cache := Some ("t0"%string, 100%Q); pedidos := 0; leituras := 6 |}).
Proof.
  apply (get_access_token_fresco (fun _ => Falha) relogio_seg
           {| cache := Some ("t0"%string, 100%Q); pedidos := 0; leituras := 5 |} "t0" 100);
    [reflexivity | vm_compute; discriminate].
Defined.

Lemma get_access_token_vencido_witness :
  get_access_token (fun _ => Token "t1" 30) relogio_seg
    {| cache := Some ("t0"%string, 2%Q); pedidos := 0; leituras := 5 |} =
  (Some "t1"%string,
   {| cache := Some ("t1"%string, (relogio_seg 6 + 30 - 60)%Q); pedidos := 1; leituras := 7 |}).
Proof.
  apply (get_access_token_vencido (fun _ => Token "t1" 30) relogio_seg
           {| cache := Some ("t0"%string, 2%Q); pedidos := 0; leituras := 5 |} "t0" 2 "t1" 30);
    [reflexivity | vm_compute; reflexivity | reflexivity].
Defined.

Lemma get_access_token_falha_witness :
  cache (snd (get_access_token (fun n => match n with O => Token "t1" 10 | _ => Falha end)
                relogio_seg {| cache := None; pedidos := 0; leituras := 0 |})) = None /\
  (1 <= pedidos (snd (get_access_token (fun n => match n with O => Token "t1" 10 | _ => Falha end)
                relogio_seg {| cache := None; pedidos := 0; leituras := 0 |})))%nat.
Proof.
  apply (get_access_token_falha (fun n => match n with O => Token "t1" 10 | _ => Falha end)
           relogio_seg {| cache := None; pedidos := 0; leituras := 0 |}).
  vm_compute. reflexivity.
Defined.

(** ** Value normalizer, further *)

Lemma normalizar_formato (ws1 ws2 : string) (g0 : list Z) (gs : list (list Z)) (dec : list Z) :
  so_espacos ws1 = true -> so_espacos ws2 = true ->
  Forall e_digito g0 -> Forall (Forall e_digito) gs -> Forall e_digito dec -> g0 <> [] ->
  exists q, normalizar_valor (ws1 +++ formato_br g0 gs dec +++ ws2) = (Fin q, true) /\
            q == valor_br g0 gs dec.
Proof.
  intros H1 H2 H0 Hgs Hdec Hg0.
  assert (Hne : g0 ++ concat gs <> []) by (destruct g0; [contradiction | discriminate]).
  pose proof (py_float_digs (g0 ++ concat gs) dec) as HP.
  rewrite <- transforma_formato in HP by assumption.
  specialize (HP ltac:(apply Forall_app; split; [exact H0 | now apply Forall_concat])
                 Hdec Hne).
  rewrite <- app_assoc in HP.
  unfold normalizar_valor. rewrite strip_envolto by (try apply sem_espacos_formato; assumption).
  destruct (String.eqb (formato_br g0 gs dec) EmptyString
            || String.eqb (formato_br g0 gs dec) "-"
            || String.eqb (formato_br g0 gs dec) "0,00") eqn:E.
  - exists 0%Q. split; [reflexivity|].
    apply orb_true_iff in E as [E|E]; [apply orb_true_iff in E as [E|E]|];
      apply String.eqb_eq in E; rewrite E in HP.
    + discriminate HP.
    + discriminate HP.
    + change (Some (Fin (0 # 100)) =
              Some (Fin (dec_value false (valor_digitos (g0 ++ concat gs ++ dec))
                           (length dec) 0))) in HP.
      injection HP as HP. unfold valor_br. rewrite <- dec_value_Qeq, <- HP.
      reflexivity.
  - rewrite HP. eexists. split; [reflexivity|]. apply dec_value_Qeq.
Qed.

Lemma dec_value_neg (m : Z) (nf : nat) (e : Z) :
  dec_value true m nf e == - dec_value false m nf e.
Proof.
  unfold dec_value. destruct (0 <=? e - Z.of_nat nf);
    unfold Qeq, Qopp; cbn [Qnum Qden]; ring.
Qed.

Lemma py_float_menos (c : ascii) (r : string) (q : Q) :
  sem_espacos (String c r) = true -> (cp c =? 43)%N = false -> (cp c =? 45)%N = false ->
  py_float (String c r) = Some (Fin q) ->
  exists q', py_float ("-" +++ String c r) = Some (Fin q') /\ q' == - q.
Proof.
  intros Hs H43 H45. unfold py_float.
  rewrite (strip_sem (String c r) Hs), (strip_sem ("-" +++ String c r)) by exact Hs.
  cbn [String.append]. rewrite H43, H45. change (cp "-" =? 43)%N with false.
  change (cp "-" =? 45)%N with true. cbv iota beta.
  destruct (_ || _); [intros H; discriminate H|].
  destruct (String.eqb _ "nan"); [intros H; discriminate H|].
  destruct (parse_number (String c r)) as [[[m nf] r0]|]; [|intros H; discriminate H].
  destruct (match parse_exponent r0 with Some p => p | None => (0, r0) end) as [e r'].
  destruct (String.eqb r' EmptyString); [|intros H; discriminate H].
  intros H. injection H as <-. eexists. split; [reflexivity|]. apply dec_value_neg.
Qed.

(** An amount with a leading "-" is read with its sign, confidently:
    [float()] accepts the sign that the "." and "," rewriting leaves in
    place. *)
Theorem normalizar_valor_negativo (ws1 ws2 : string) (g0 : list Z) (gs : list (list Z))
    (dec : list Z) :
  so_espacos ws1 = true -> so_espacos ws2 = true ->
  Forall e_digito g0 -> Forall (Forall e_digito) gs -> Forall e_digito dec -> g0 <> [] ->
  exists q, normalizar_valor (ws1 +++ ("-" +++ formato_br g0 gs dec) +++ ws2) = (Fin q, true) /\
            q == - valor_br g0 gs dec.
Proof.
  intros H1 H2 H0 Hgs Hdec Hg0.
  assert (Hne : g0 ++ concat gs <> []) by (destruct g0; [contradiction | discriminate]).
  pose proof (py_float_digs (g0 ++ concat gs) dec) as HP.
  specialize (HP ltac:(apply Forall_app; split; [exact H0 | now apply Forall_concat])
                 Hdec Hne).
  rewrite <- app_assoc in HP.
  destruct g0 as [|a g0']; [contradiction|].
  inversion H0 as [|? ? Ha Hg0']; subst.
  destruct (digito_fatos a Ha) as (Hdig & Hsp & _ & _ & _ & _ & H43 & H45 & _).
  assert (Hs : sem_espacos (formato_br (a :: g0') gs dec) = true)
    by (apply sem_espacos_formato; assumption).
  unfold normalizar_valor. rewrite strip_envolto by (try exact Hs; assumption).
  assert (Hc : String.eqb ("-" +++ formato_br (a :: g0') gs dec) EmptyString
               || String.eqb ("-" +++ formato_br (a :: g0') gs dec) "-"
               || String.eqb ("-" +++ formato_br (a :: g0') gs dec) "0,00" = false)
    by reflexivity.
  rewrite Hc. rewrite !replace_char_app.
  change (replace_char "," "." (replace_char "." EmptyString "-")) with "-"%string.
  rewrite transforma_formato by assumption.
  set (M := match dec with [] => EmptyString | _ :: _ => "." +++ digs dec end) in *.
  change (digs ((a :: g0') ++ concat gs) +++ M)
    with (String (digito a) (digs (g0' ++ concat gs) +++ M)) in HP |- *.
  assert (Hsx : sem_espacos (String (digito a) (digs (g0' ++ concat gs) +++ M)) = true).
  { change (String (digito a) (digs (g0' ++ concat gs) +++ M))
      with (digs ((a :: g0') ++ concat gs) +++ M).
    rewrite sem_espacos_app, sem_espacos_digs.
    - subst M. destruct dec; [reflexivity|]. cbn [String.append sem_espacos].
      now rewrite sem_espacos_digs.
    - apply Forall_app. split; [exact H0 | now apply Forall_concat]. }
  destruct (py_float_menos _ _ _ Hsx H43 H45 HP) as (q' & Hq & Hqe).
  rewrite Hq. exists q'. split; [reflexivity|].
  rewrite Hqe. unfold valor_br. rewrite <- dec_value_Qeq. reflexivity.
Qed.


Lemma normalizar_valor_negativo_witness :
  exists q, normalizar_valor (" " +++ ("-" +++ formato_br [1] [[2;3;4]] [5;6]) +++ EmptyString)
              = (Fin q, true) /\ q == - valor_br [1] [[2;3;4]] [5;6].
Proof.
  apply normalizar_valor_negativo;
    [reflexivity | reflexivity | | | | discriminate];
    repeat constructor; unfold e_digito; lia.
Defined.

(** A "." is always a thousands separator, never a decimal point: an amount
    written "1234.56" is read, confidently, as the integer 123456. *)
Theorem normalizar_valor_ponto (ws1 ws2 : string) (A D : list Z) :
  so_espacos ws1 = true -> so_espacos ws2 = true ->
  Forall e_digito A -> Forall e_digito D -> A <> [] ->
  exists q, normalizar_valor (ws1 +++ (digs A +++ "." +++ digs D) +++ ws2) = (Fin q, true) /\
            q == inject_Z (valor_digitos (A ++ D)).
Proof.
  intros H1 H2 HA HD Hne.
  assert (E : digs A +++ "." +++ digs D = formato_br A [D] []).
  { unfold formato_br. cbn [grupos]. now rewrite !append_nil_s. }
  rewrite E. destruct (normalizar_formato ws1 ws2 A [D] [] H1 H2 HA) as (q & Hq & Hqe);
    [repeat constructor; exact HD | constructor | exact Hne |].
  exists q. split; [exact Hq|]. rewrite Hqe. unfold valor_br. cbn [concat length].
  rewrite !app_nil_r. change (10 ^ Z.of_nat 0) with 1. unfold Qdiv.
  change (Qinv (inject_Z 1)) with 1%Q. apply Qmult_1_r.
Qed.

Lemma normalizar_valor_ponto_witness :
  exists q, normalizar_valor (EmptyString +++ (digs [1;2;3;4] +++ "." +++ digs [5;6]) +++ EmptyString)
              = (Fin q, true) /\ q == inject_Z (valor_digitos ([1;2;3;4] ++ [5;6])).
Proof.
  apply normalizar_valor_ponto; [reflexivity | reflexivity | | | discriminate];
    repeat constructor; unfold e_digito; lia.
Defined.

Lemma letra_fatos (c : ascii) :
  is_ascii_lower (if is_ascii_upper c then ascii_of_N (cp c + 32) else c) = true ->
  is_space c = false /\ Ascii.eqb c "." = false /\ Ascii.eqb c "," = false /\
  (cp c =? 43)%N = false /\ (cp c =? 45)%N = false /\
  c <> "-"%char /\ c <> "+"%char /\ c <> "0"%char.
Proof.
  destruct c as [[] [] [] [] [] [] [] []]; vm_compute; intros H;
    first [discriminate H | repeat split; discriminate].
Qed.

Lemma so_letras_fatos (w : string) :
  so_letras (ascii_lower w) = true ->
  sem_espacos w = true /\ replace_char "." EmptyString w = w /\ replace_char "," "." w = w.
Proof.
  induction w as [|c r IH]; [auto|]. unfold so_letras. cbn [ascii_lower list_ascii_of_string forallb].
  intros H. apply andb_prop in H as [Hc Hr].
  destruct (letra_fatos c Hc) as (H1 & H2 & H3 & _). destruct (IH Hr) as (I1 & I2 & I3).
  cbn [sem_espacos replace_char]. rewrite H1, H2, H3, I1, I2, I3. auto.
Qed.

(** A "nan", "inf" or "infinity" in any letter case, with or without a
    sign, is not rejected: [float()] reads it, so the amount comes out as a
    NaN or an infinity with the flag saying it was read. *)
Theorem normalizar_valor_nao_numero (ws1 ws2 sinal w : string) :
  so_espacos ws1 = true -> so_espacos ws2 = true -> In sinal [EmptyString; "+"; "-"]%string ->
  In (ascii_lower w) ["nan"; "inf"; "infinity"]%string ->
  normalizar_valor (ws1 +++ (sinal +++ w) +++ ws2) =
  (if String.eqb (ascii_lower w) "nan" then NaN else Inf (String.eqb sinal "-"), true).
Proof.
  intros H1 H2 Hs Hl.
  assert (Hlet : so_letras (ascii_lower w) = true)
    by (destruct Hl as [E|[E|[E|[]]]]; rewrite <- E; reflexivity).
  destruct (so_letras_fatos w Hlet) as (Hsp & Hp & Hv).
  destruct w as [|c r]; [destruct Hl as [E|[E|[E|[]]]]; discriminate E|].
  unfold so_letras in Hlet. cbn [ascii_lower list_ascii_of_string forallb] in Hlet.
  apply andb_prop in Hlet as [Hc _].
  destruct (letra_fatos c Hc) as (_ & _ & _ & Hc43 & Hc45 & Hcm & Hcp & Hc0).
  assert (Hs_sp : sem_espacos sinal = true) by (destruct Hs as [<-|[<-|[<-|[]]]]; reflexivity).
  assert (Hs_rep : replace_char "," "." (replace_char "." EmptyString sinal) = sinal)
    by (destruct Hs as [<-|[<-|[<-|[]]]]; reflexivity).
  assert (Hsw : sem_espacos (sinal +++ String c r) = true)
    by (rewrite sem_espacos_app, Hs_sp; exact Hsp).
  unfold normalizar_valor.
  rewrite strip_envolto by assumption.
  rewrite !replace_char_app, Hp, Hv, Hs_rep.
  remember (ascii_lower (String c r)) as low eqn:Elow.
  destruct Hs as [<-|[<-|[<-|[]]]];
    repeat match goal with
    | |- context [String.eqb ?a ?b] =>
        lazymatch b with
        | "nan"%string => fail
        | _ => destruct (String.eqb_spec a b) as [E|_];
               [exfalso; cbn in E; inversion E; congruence|]
        end
    end;
    cbn [orb]; unfold py_float; rewrite strip_sem by assumption;
    cbv beta iota zeta delta [String.append].
  - rewrite Hc43, Hc45. cbv beta iota. rewrite <- Elow.
    destruct Hl as [<-|[<-|[<-|[]]]]; vm_compute; reflexivity.
  - change (cp "+" =? 43)%N with true. cbv beta iota. rewrite <- Elow.
    destruct Hl as [<-|[<-|[<-|[]]]]; vm_compute; reflexivity.
  - change (cp "-" =? 43)%N with false. change (cp "-" =? 45)%N with true.
    cbv beta iota. rewrite <- Elow.
    destruct Hl as [<-|[<-|[<-|[]]]]; vm_compute; reflexivity.
Qed.

Lemma normalizar_valor_nao_numero_witness :
  so_espacos " " = true /\ so_espacos EmptyString = true /\ In "-"%string [EmptyString; "+"; "-"]%string /\
  In (ascii_lower "Inf") ["nan"; "inf"; "infinity"]%string /\
  normalizar_valor (" " +++ ("-" +++ "Inf") +++ EmptyString) = (Inf true, true).
Proof.
  refine (conj eq_refl (conj eq_refl (conj _ (conj _ _)))).
  - right. right. left. reflexivity.
  - right. left. reflexivity.
  - apply (normalizar_valor_nao_numero " " EmptyString "-" "Inf").
    + reflexivity.
    + reflexivity.
    + right. right. left. reflexivity.
    + right. left. reflexivity.
Defined.

(** ** Token cache, further *)

Section TokenGuarda.
Variable servidor : nat -> resposta.
Variable relogio : nat -> Q.

(** After a call that returns, the cache holds the token it returned. *)
Theorem get_access_token_guarda (w : mundo) (tok : string) :
  fst (get_access_token servidor relogio w) = Some tok ->
  exists exp, cache (snd (get_access_token servidor relogio w)) = Some (tok, exp).
Proof.
  unfold get_access_token.
  destruct (cached_token servidor relogio w) as [[[tok1 exp1]|] w1] eqn:E1;
    [|intros H; discriminate H].
  cbn [ler_relogio]. destruct (Qle_bool _ exp1).
  - intros H. injection H as <-. apply cached_token_sucesso in E1 as [H1 _].
    exists exp1. exact H1.
  - destruct (cached_token servidor relogio (com_cache _ None)) as [[[tok2 exp2]|] w3] eqn:E3;
      cbn; intros H; [|discriminate H]. injection H as <-.
    apply cached_token_sucesso in E3 as [H1 _]. exists exp2. exact H1.
Qed.
End TokenGuarda.

Lemma get_access_token_guarda_witness :
  exists exp, cache (snd (get_access_token (fun _ => Token "t1" 3600) relogio_seg
                 {| cache := None; pedidos := 0; leituras := 0 |})) = Some ("t1"%string, exp).
Proof. apply (get_access_token_guarda _ _ _ "t1"). reflexivity. Defined.
